(** * YoutubeChannel2rss: a shallow embedding of [src/main.py]

    The development follows the layout of the script: the cache store
    ([load_cache] ... [cache_channel_id]), the retrying fetcher
    ([retry_request], [get_youtube_source_code], [fetch_rss_feed_content]),
    the identifier extraction ([get_youtube_channel_id]), the entry filter
    ([filter_videos]) and the part of the main block that determines the
    channel identifier.

    Python values that flow through the cache are JSON values; Python
    exceptions are an inductive type; functions that can raise return a
    [result]; functions that touch the network, the cache file, the clock or
    the terminal run in the state-and-exception monad [M] over [world].
    Functions of the libraries the script imports ([bs4], [datetime],
    [str.lower], [repr]) are fields of the class [Library]: every theorem
    holds for every implementation of them. *)

From Stdlib Require Import Ascii String ZArith Lia.
From stdpp Require Import base option list strings gmap pretty.

Set Warnings "-register-all".

(** ** Exceptions and results *)

(** The exception classes the script can meet.  [ConnectTimeout] is the
    [requests] class that inherits from both [Timeout] and
    [ConnectionError]; [RequestException] stands for the remaining classes
    of [requests.exceptions]; [OSError], of which [IOError] is an alias, is
    what the file system raises; [OtherException] for everything else. *)
Inductive exn :=
  | Timeout
  | ConnectTimeout
  | ConnectionError
  | HTTPError (status_code : Z)
  | RequestException (msg : string)
  | ValueError
  | TypeError
  | AttributeError
  | KeyError
  | UnicodeDecodeError
  | OSError (msg : string)
  | SystemExit (code : Z)
  | OtherException (name : string).

Definition isinstance_Timeout (e : exn) : bool :=
  match e with Timeout | ConnectTimeout => true | _ => false end.

Definition isinstance_ConnectionError (e : exn) : bool :=
  match e with ConnectionError | ConnectTimeout => true | _ => false end.

Definition isinstance_HTTPError (e : exn) : option Z :=
  match e with HTTPError c => Some c | _ => None end.

Definition isinstance_RequestException (e : exn) : option string :=
  match e with
  | Timeout => Some "Timeout"
  | ConnectTimeout => Some "ConnectTimeout"
  | ConnectionError => Some "ConnectionError"
  | HTTPError c => Some ("HTTPError " +:+ pretty c)
  | RequestException msg => Some msg
  | _ => None
  end.

(** A transient condition in the sense of the retry policy. *)
Definition transient (e : exn) : bool :=
  isinstance_Timeout e || isinstance_ConnectionError e.

Inductive result (A : Type) :=
  | Return (a : A)
  | Raise (e : exn).
Arguments Return {A} a.
Arguments Raise {A} e.

Definition is_raise {A} (r : result A) : bool :=
  match r with Raise _ => true | Return _ => false end.

Definition rbind {A B} (r : result A) (k : A → result B) : result B :=
  match r with
  | Return a => k a
  | Raise e => Raise e
  end.

Declare Scope py_scope.
Delimit Scope py_scope with py.
Notation "'let?' x ':=' c 'in' k" := (rbind c (λ x, k))
  (at level 10, x name, c at level 100, k at level 200) : py_scope.

(** ** Regular expressions

    The fragment of [re] the script uses: literal characters, a character
    set, a greedy [+] on a character set, and one capture group.  A pattern
    is [before (group) after]; matching is leftmost, greedy and
    backtracking, as [re.search] does it. *)
Module re.

Inductive item :=
  | Lit (c : ascii)
  | Set_ (cls : ascii → bool)
  | Plus (cls : ascii → bool).

Record pattern := Pattern {
  before : list item;
  group : list item;
  after : list item
}.

Fixpoint lits (s : string) : list item :=
  match s with
  | EmptyString => []
  | String c s' => Lit c :: lits s'
  end.

Definition in_range (lo hi c : ascii) : bool :=
  (N_of_ascii lo <=? N_of_ascii c)%N && (N_of_ascii c <=? N_of_ascii hi)%N.

(** [[UC]] *)
Definition set_UC (c : ascii) : bool :=
  Ascii.eqb c "U" || Ascii.eqb c "C".

(** [[a-zA-Z0-9_-]] *)
Definition set_word (c : ascii) : bool :=
  in_range "a" "z" c || in_range "A" "Z" c || in_range "0" "9" c
  || Ascii.eqb c "_" || Ascii.eqb c "-".

(** [matches items s k]: match [items] at the start of [s] and hand the
    rest of the text to the continuation [k]; a greedy [+] first tries
    to take one more character and falls back to the continuation. *)
Fixpoint matches {R} (items : list item) (s : string)
    (k : string → option R) : option R :=
  match items with
  | [] => k s
  | Lit c :: items' =>
      match s with
      | String c' s' => if Ascii.eqb c c' then matches items' s' k else None
      | EmptyString => None
      end
  | Set_ cls :: items' =>
      match s with
      | String c' s' => if cls c' then matches items' s' k else None
      | EmptyString => None
      end
  | Plus cls :: items' =>
      (fix more (s : string) : option R :=
         match s with
         | String c' s' =>
             if cls c' then
               match more s' with
               | Some r => Some r
               | None => matches items' s' k
               end
             else None
         | EmptyString => None
         end) s
  end.

Fixpoint take (n : nat) (s : string) : string :=
  match n, s with
  | S n', String c s' => String c (take n' s')
  | _, _ => EmptyString
  end.

(** The text between the position where the group opened ([s1]) and the
    position where it closed ([s2], a suffix of [s1]). *)
Definition captured (s1 s2 : string) : string :=
  take (String.length s1 - String.length s2) s1.

(** A match attempt at the start of [s]; the result is [group(1)]. *)
Definition match_at (p : pattern) (s : string) : option string :=
  matches (before p) s (λ s1,
    matches (group p) s1 (λ s2,
      matches (after p) s2 (λ _, Some (captured s1 s2)))).

(** [re.search(p, s).group(1)], or [None]. *)
Fixpoint search (p : pattern) (s : string) : option string :=
  match match_at p s with
  | Some g => Some g
  | None =>
      match s with
      | String _ s' => search p s'
      | EmptyString => None
      end
  end.

(** The leftmost match of any of the patterns [ps]: at each position the
    patterns are tried in the order of the list. *)
Fixpoint first_at (ps : list pattern) (s : string) : option string :=
  match ps with
  | [] => None
  | p :: ps' =>
      match match_at p s with
      | Some g => Some g
      | None => first_at ps' s
      end
  end.

Fixpoint search_any (ps : list pattern) (s : string) : option string :=
  match first_at ps s with
  | Some g => Some g
  | None =>
      match s with
      | String _ s' => search_any ps s'
      | EmptyString => None
      end
  end.

End re.

(** The double quote character, and a text between double quotes. *)
Definition dquote : ascii := "034"%char.
Definition quoted (s : string) : string :=
  String dquote (s +:+ String dquote EmptyString).

(** [r"/channel/([UC][a-zA-Z0-9_-]+)"] *)
Definition re_og_channel : re.pattern :=
  re.Pattern (re.lits "/channel/") [re.Set_ re.set_UC; re.Plus re.set_word] [].

(** [r"/@([a-zA-Z0-9_-]+)"] *)
Definition re_og_handle : re.pattern :=
  re.Pattern (re.lits "/@") [re.Plus re.set_word] [].

(** [r"\"channel_id\":\"([UC][a-zA-Z0-9_-]+)\""] *)
Definition re_channel_id : re.pattern :=
  re.Pattern (re.lits (quoted "channel_id" +:+ ":" +:+ String dquote ""))
             [re.Set_ re.set_UC; re.Plus re.set_word]
             [re.Lit dquote].

(** [r"\"channelId\":\"([UC][a-zA-Z0-9_-]+)\""] *)
Definition re_channelId : re.pattern :=
  re.Pattern (re.lits (quoted "channelId" +:+ ":" +:+ String dquote ""))
             [re.Set_ re.set_UC; re.Plus re.set_word]
             [re.Lit dquote].

(** ** Python values

    What [json.load] can produce; [JNull] is Python's [None], so the same
    type serves for the values the main block holds in [channel_id]. *)
Inductive float_value :=
  | FNaN
  | FInf (negative : bool)
  | FFinite (mantissa exponent : Z).

Inductive json :=
  | JNull
  | JBool (b : bool)
  | JInt (z : Z)
  | JFloat (f : float_value)
  | JStr (s : string)
  | JList (l : list json)
  | JDict (d : gmap string json).

(** Python truth value testing ([if v:]). *)
Definition truthy (v : json) : bool :=
  match v with
  | JNull => false
  | JBool b => b
  | JInt z => negb (z =? 0)%Z
  | JFloat (FFinite m _) => negb (m =? 0)%Z
  | JFloat _ => true
  | JStr s => negb (String.eqb s "")
  | JList l => match l with [] => false | _ :: _ => true end
  | JDict d => negb (bool_decide (d = ∅))
  end.

(** ** Parsed markup, feed entries, dates *)

(** A tag as [bs4] presents it: its name, its attribute dictionary and its
    rendering [str(tag)]. *)
Record Tag := {
  name : string;
  attrs : gmap string string;
  markup : string
}.

(** What [filter_videos] reads of a feed [entry] element:
    [entry.find("title")] and [entry.find("published")] with their [.text],
    and [entry.find("link")] with its [href] attribute; [None] where
    [find] returns [None] or the attribute is missing. *)
Record Entry := {
  entry_title : option string;
  entry_published : option string;
  entry_link : option (option string)
}.

(** [datetime.date]; comparison is on [(year, month, day)]. *)
Record date := Date { year : Z; month : Z; day : Z }.

Record datetime := {
  dt_date : date;               (* [.date()] *)
  dt_seconds : Z;               (* time of day *)
  dt_utcoffset : option Z
}.

Definition date_eqb (a b : date) : bool :=
  (year a =? year b)%Z && (month a =? month b)%Z && (day a =? day b)%Z.

Definition date_ltb (a b : date) : bool :=
  (year a <? year b)%Z
  || ((year a =? year b)%Z
      && ((month a <? month b)%Z
          || ((month a =? month b)%Z && (day a <? day b)%Z))).

Definition date_leb (a b : date) : bool := date_ltb a b || date_eqb a b.

(** ** Library functions

    The functions of imported libraries that the script calls.  They are
    not code of the repository; the embedding takes them as given. *)
Class Library := {
  (** [BeautifulSoup(src, "html.parser")]: the tags of the page in
      document order *)
  BeautifulSoup_html : list Byte.byte → list Tag;
  (** whether the [xml] tree builder (lxml) is installed *)
  lxml_installed : bool;
  (** [BeautifulSoup(content, "xml").find_all("entry")] *)
  BeautifulSoup_xml_entries : list Byte.byte → list Entry;
  (** [datetime.strptime(s, "%Y-%m-%d")]; [None] for [ValueError] *)
  strptime_ymd : string → option datetime;
  (** [datetime.strptime(s, "%Y-%m-%dT%H:%M:%S%z")] *)
  strptime_iso : string → option datetime;
  (** [str.lower] *)
  str_lower : string → string;
  (** [repr] of a value that is not a string *)
  py_repr : json → string
}.

(** ** The world *)

(** What one [requests.get] comes back with. *)
Inductive reply :=
  | Response (status_code : Z) (content : list Byte.byte)
  | Failure (e : exn).

(** The cache file [~/.youtuberss/cache.json] as the script meets it, by
    what the calls on its path come back with.  [Absent] is a file that is
    not there, in a directory that is there or that [mkdir] makes. *)
Inductive file_state :=
  | NoDirectory (e : exn)
      (* [get_cache_file_path()] raises [e]: [OSError] from
         [cache_dir.mkdir(exist_ok=True)], or what [Path.home()] raises *)
  | NoAccess (msg : string)
      (* [mkdir] returns, [cache_file.exists()] raises [OSError] (the
         directory cannot be searched; [pathlib] before Python 3.12) *)
  | Absent              (* [exists()] is [False] *)
  | Unreadable          (* opening or reading raises [IOError] *)
  | Malformed           (* [json.load] raises [JSONDecodeError] *)
  | Undecodable         (* the bytes are not UTF-8: [UnicodeDecodeError] *)
  | Parsed (j : json).

(** How [save_cache] fails to write, when it does: [open(cache_file, "w")]
    raises [IOError] and the file is untouched, or [IOError] is raised
    after [open] has truncated the file, and the file is left holding what
    had reached it (no text or a part of the text, which is [Malformed]). *)
Inductive write_failure :=
  | OpenFails (msg : string)
  | WriteFails (msg : string) (remains : file_state).

(** Everything outside the process.  [internet url n] is the reply to a GET
    of [url] issued as request number [n]; [requests_log] lists the GETs
    issued so far. *)
Record system := {
  internet : string → nat → reply;
  requests_log : list string;
  cache_path : string;
    (* [str(Path.home() / ".youtuberss" / "cache.json")] *)
  cache_file : file_state;
  cache_write_error : option write_failure;
  cache_unlink_error : option string;  (* [OSError] of [unlink()] *)
  now_isoformat : string               (* [datetime.now().isoformat()] *)
}.

Record world := {
  sys : system;
  slept : list Z;        (* arguments of [time.sleep], oldest first *)
  stdout : list string   (* printed lines, oldest first *)
}.

Definition set_sys (s : system) (w : world) : world :=
  {| sys := s; slept := slept w; stdout := stdout w |}.

Definition log_request (url : string) (s : system) : system :=
  {| internet := internet s;
     requests_log := requests_log s ++ [url];
     cache_path := cache_path s;
     cache_file := cache_file s;
     cache_write_error := cache_write_error s;
     cache_unlink_error := cache_unlink_error s;
     now_isoformat := now_isoformat s |}.

Definition set_cache_file (f : file_state) (s : system) : system :=
  {| internet := internet s;
     requests_log := requests_log s;
     cache_path := cache_path s;
     cache_file := f;
     cache_write_error := cache_write_error s;
     cache_unlink_error := cache_unlink_error s;
     now_isoformat := now_isoformat s |}.

Definition write_cache_file (j : json) (s : system) : system :=
  set_cache_file (Parsed j) s.

(** ** The state-and-exception monad *)
Definition M (A : Type) : Type := world → result A * world.

Definition ret {A} (a : A) : M A := λ w, (Return a, w).
Definition raise {A} (e : exn) : M A := λ w, (Raise e, w).

Definition bind {A B} (m : M A) (k : A → M B) : M B :=
  λ w, match m w with
       | (Return a, w') => k a w'
       | (Raise e, w') => (Raise e, w')
       end.

(** [try: m except: handler] *)
Definition try_except {A} (m : M A) (handler : exn → M A) : M A :=
  λ w, match m w with
       | (Return a, w') => (Return a, w')
       | (Raise e, w') => handler e w'
       end.

(** A computation that only acts on the system. *)
Definition lift_sys {A} (f : system → result A * system) : M A :=
  λ w, let (r, s') := f (sys w) in (r, set_sys s' w).

Notation "'let!' x ':=' c 'in' k" := (bind c (λ x, k))
  (at level 10, x name, c at level 100, k at level 200) : py_scope.
Notation "c ';;' k" := (bind c (λ _, k))
  (at level 100, k at level 200, right associativity) : py_scope.
Open Scope py_scope.

Definition print (line : string) : M unit :=
  λ w, (Return tt,
        {| sys := sys w; slept := slept w; stdout := stdout w ++ [line] |}).

(** [time.sleep(secs)]; a negative argument is a [ValueError]. *)
Definition time_sleep (secs : Z) : M unit :=
  λ w, if (secs <? 0)%Z then (Raise ValueError, w)
       else (Return tt,
             {| sys := sys w; slept := slept w ++ [secs];
                stdout := stdout w |}).

(** ** Cache store *)

(** [get_cache_file_path()]: [mkdir] runs outside every [try]; the result
    is rendered as the text of the path. *)
Definition get_cache_file_path : M string :=
  λ w, match cache_file (sys w) with
       | NoDirectory e => (Raise e, w)
       | _ => (Return (cache_path (sys w)), w)
       end.

(** [cache_file.exists()] *)
Definition path_exists : M bool :=
  λ w, match cache_file (sys w) with
       | NoAccess msg => (Raise (OSError msg), w)
       | NoDirectory _ | Absent => (Return false, w)
       | _ => (Return true, w)
       end.

(** The [try] block of [load_cache]: [IOError] and [JSONDecodeError] are
    caught, [UnicodeDecodeError] is neither. *)
Definition read_cache_file : M json :=
  λ w, match cache_file (sys w) with
       | Parsed j => (Return j, w)
       | Undecodable => (Raise UnicodeDecodeError, w)
       | _ => (Return (JDict ∅), w)
       end.

Definition load_cache : M json :=
  let! cache_file_path := get_cache_file_path in
  let! there := path_exists in
  if there then read_cache_file else ret (JDict ∅).

Definition save_cache (cache : json) : M unit :=
  let! cache_file_path := get_cache_file_path in
  λ w, match cache_write_error (sys w) with
       | None => (Return tt, set_sys (write_cache_file cache (sys w)) w)
       | Some (OpenFails e) =>
           print ("Warning: Could not save cache: " +:+ e) w
       | Some (WriteFails e remains) =>
           print ("Warning: Could not save cache: " +:+ e)
                 (set_sys (set_cache_file remains (sys w)) w)
       end.

(** [cache.get(url)]: only a dictionary has [get]. *)
Definition dict_get (cache : json) (key : string) : M json :=
  match cache with
  | JDict d => ret (default JNull (d !! key))
  | _ => raise AttributeError
  end.

Definition get_cached_channel_id (url : string) (use_cache : bool) : M json :=
  if negb use_cache then ret JNull
  else
    let! cache := load_cache in
    let! cache_entry := dict_get cache url in
    if truthy cache_entry then
      match cache_entry with
      | JDict d =>
          match d !! "channel_id" with
          | Some channel_id => ret channel_id
          | None => ret cache_entry
          end
      | _ => ret cache_entry
      end
    else ret JNull.

Definition datetime_now_isoformat : M string :=
  λ w, (Return (now_isoformat (sys w)), w).

(** The record [cache_channel_id] writes for an identifier. *)
Definition cache_record (channel_id now : string) : json :=
  JDict (<["channel_id" := JStr channel_id]>
           (<["timestamp" := JStr now]> ∅)).

Definition cache_channel_id (url channel_id : string) : M unit :=
  let! cache := load_cache in
  let! now := datetime_now_isoformat in
  match cache with
  | JDict d => save_cache (JDict (<[url := cache_record channel_id now]> d))
  | _ => raise TypeError
  end.

(** ** Retrying fetcher *)

Definition retry_message (what : string) (wait_time attempt max_retries : Z)
    : string :=
  what +:+ ". Retrying in " +:+ pretty wait_time +:+ " seconds... (attempt "
       +:+ pretty (attempt + 1)%Z +:+ "/" +:+ pretty max_retries +:+ ")".

(** The body of the [for attempt in range(max_retries)] loop, with
    [remaining] iterations to go; [None] is the [return None] after the
    loop. *)
Fixpoint retry_loop {A} (func : M A) (max_retries backoff_factor : Z)
    (remaining : nat) (attempt : Z) : M (option A) :=
  match remaining with
  | O => ret None
  | S remaining' =>
      try_except
        (let! result := func in ret (Some result))
        (λ e,
           if isinstance_Timeout e then
             if (attempt <? max_retries - 1)%Z then
               let wait_time := (backoff_factor ^ attempt)%Z in
               print (retry_message "Timeout" wait_time attempt max_retries);;
               time_sleep wait_time;;
               retry_loop func max_retries backoff_factor remaining'
                          (attempt + 1)%Z
             else raise e
           else if isinstance_ConnectionError e then
             if (attempt <? max_retries - 1)%Z then
               let wait_time := (backoff_factor ^ attempt)%Z in
               print (retry_message "Connection error" wait_time attempt
                                    max_retries);;
               time_sleep wait_time;;
               retry_loop func max_retries backoff_factor remaining'
                          (attempt + 1)%Z
             else raise e
           else raise e)
  end.

Definition retry_request {A} (func : M A) (max_retries backoff_factor : Z)
    : M (option A) :=
  retry_loop func max_retries backoff_factor (Z.to_nat max_retries) 0%Z.

(** [requests.get(url, timeout=10)], [raise_for_status()], [.content] on
    the system: the request is logged, a status from 400 to 599 is an
    [HTTPError]. *)
Definition requests_get_content (url : string) (s : system)
    : result (list Byte.byte) * system :=
  let s' := log_request url s in
  match internet s url (length (requests_log s)) with
  | Response status content =>
      if (400 <=? status)%Z && (status <? 600)%Z
      then (Raise (HTTPError status), s')
      else (Return content, s')
  | Failure e => (Raise e, s')
  end.

(** The local function [_fetch] of both fetchers. *)
Definition _fetch (url : string) : M (list Byte.byte) :=
  lift_sys (requests_get_content url).

Definition get_youtube_source_code (url : string)
    : M (option (list Byte.byte)) :=
  try_except
    (retry_request (_fetch url) 3 2)
    (λ e,
       if isinstance_Timeout e then
         print ("Error: Request timed out while fetching URL: " +:+ url);;
         print "Suggestion: Check your internet connection or try again later.";;
         ret None
       else match isinstance_HTTPError e with
       | Some status =>
           (if (status =? 404)%Z then
              print ("Error: YouTube page not found (404): " +:+ url);;
              print "Suggestion: Verify the URL is correct and the channel exists."
            else
              print ("Error: HTTP error " +:+ pretty status
                       +:+ " while fetching URL: " +:+ url));;
           ret None
       | None =>
           if isinstance_ConnectionError e then
             print ("Error: Connection error while fetching URL: " +:+ url);;
             print "Suggestion: Check your internet connection.";;
             ret None
           else match isinstance_RequestException e with
           | Some msg =>
               print ("Error fetching URL: " +:+ msg);;
               print "Suggestion: Check the URL format and try again.";;
               ret None
           | None => raise e
           end
       end).

(** [l[:limit]] *)
Definition slice_to {A} (limit : Z) (l : list A) : list A :=
  if (0 <=? limit)%Z then take (Z.to_nat limit) l
  else take (length l - Z.to_nat (- limit)) l.

Definition fetch_rss_feed_content `{Library} (feed_url : string) (limit : Z)
    : M (option (list Entry)) :=
  try_except
    (let! content := retry_request (_fetch feed_url) 3 2 in
     match content with
     | None => ret None
     | Some content =>
         if lxml_installed then
           ret (Some (slice_to limit (BeautifulSoup_xml_entries content)))
         else
           print ("Error: Couldn't find a tree builder with the features you requested: xml."
                    +:+ " Please install the 'lxml' parser library using 'pip install lxml'.");;
           ret None
     end)
    (λ e,
       if isinstance_Timeout e then
         print ("Error: Request timed out while fetching RSS feed: "
                  +:+ feed_url);;
         print "Suggestion: Check your internet connection or try again later.";;
         ret None
       else match isinstance_HTTPError e with
       | Some status =>
           (if (status =? 404)%Z then
              print ("Error: RSS feed not found (404): " +:+ feed_url);;
              print "Suggestion: The channel might not have any videos or the feed is unavailable."
            else if (status =? 429)%Z then
              print ("Error: Rate limited (429) while fetching RSS feed: "
                       +:+ feed_url);;
              print "Suggestion: You're making too many requests. Wait a while before trying again."
            else
              print ("Error: HTTP error " +:+ pretty status
                       +:+ " while fetching RSS feed: " +:+ feed_url));;
           ret None
       | None =>
           match isinstance_RequestException e with
           | Some msg => print ("Error fetching RSS feed: " +:+ msg);; ret None
           | None => raise e
           end
       end).

(** ** Identifier extraction *)

(** [soup.find(tag_name, **{attr: value})]: the first tag, in document
    order, with that name and that attribute value. *)
Definition soup_find (tag_name attr value : string) (soup : list Tag)
    : option Tag :=
  List.find (λ t, String.eqb (name t) tag_name
                  && bool_decide (attrs t !! attr = Some value)) soup.

(** [soup.find_all(tag_name)] *)
Definition soup_find_all (tag_name : string) (soup : list Tag) : list Tag :=
  List.filter (λ t, String.eqb (name t) tag_name) soup.

(** Method 2, the loop over the script tags. *)
Fixpoint scan_scripts (script_tags : list Tag) : option string :=
  match script_tags with
  | [] => None
  | script :: rest =>
      let script_content := markup script in
      match re.search re_channel_id script_content with
      | Some g => Some g
      | None =>
          match re.search re_channelId script_content with
          | Some g => Some g
          | None => scan_scripts rest
          end
      end
  end.

(** The function after [soup = BeautifulSoup(...)].  A [meta] tag without
    a [content] attribute makes [og_url] [None], and [re.search] raises
    [TypeError] on it. *)
Definition extract_channel_id (soup : list Tag) : result (option string) :=
  let method2 := Return (scan_scripts (soup_find_all "script" soup)) in
  match soup_find "meta" "property" "og:url" soup with
  | Some meta_tag =>
      match attrs meta_tag !! "content" with
      | None => Raise TypeError
      | Some og_url =>
          match re.search re_og_channel og_url with
          | Some g => Return (Some g)
          | None =>
              match re.search re_og_handle og_url with
              | Some _ => (* pass *) method2
              | None => method2
              end
          end
      end
  | None => method2
  end.

Definition get_youtube_channel_id `{Library}
    (html_source_code : option (list Byte.byte)) : result (option string) :=
  match html_source_code with
  | None => Return None
  | Some src => extract_channel_id (BeautifulSoup_html src)
  end.

(** ** Entry filter *)

Record Video := {
  title : string;
  published : string;
  link : string
}.

#[global] Instance Video_eq_dec : EqDecision Video.
Proof. solve_decision. Defined.

(** [needle in haystack] on strings *)
Fixpoint contains (needle haystack : string) : bool :=
  String.prefix needle haystack
  || match haystack with
     | String _ rest => contains needle rest
     | EmptyString => false
     end.

(** [datetime.strptime(d, "%Y-%m-%d").date() if d else None] *)
Definition parse_bound `{Library} (d : option string) : result (option date) :=
  match d with
  | None => Return None
  | Some s =>
      if String.eqb s "" then Return None
      else match strptime_ymd s with
           | Some dt => Return (Some (dt_date dt))
           | None => Raise ValueError
           end
  end.

(** The tests of one loop iteration, from the date range down to the
    title: [false] is a [continue]. *)
Definition passes `{Library} (filter_by filter_value : option string)
    (after_dt before_dt : option date) (title : string)
    (entry_date : datetime) : result bool :=
  if match after_dt with
     | Some a => date_ltb (dt_date entry_date) a
     | None => false
     end
  then Return false
  else if match before_dt with
          | Some b => date_ltb b (dt_date entry_date)
          | None => false
          end
  then Return false
  else
    let? same_date :=
      if bool_decide (filter_by = Some "date") then
        match filter_value with
        | None => Raise TypeError
        | Some v =>
            match strptime_ymd v with
            | Some filter_date =>
                Return (date_eqb (dt_date entry_date) (dt_date filter_date))
            | None => Raise ValueError
            end
        end
      else Return true in
    if negb same_date then Return false
    else if bool_decide (filter_by = Some "title") then
      match filter_value with
      | None => Raise AttributeError
      | Some v => Return (contains (str_lower v) (str_lower title))
      end
    else Return true.

(** The fields read at the top of the loop body. *)
Definition read_entry `{Library} (entry : Entry)
    : result (string * string * string * datetime) :=
  let? title :=
    match entry_title entry with
    | Some t => Return t
    | None => Raise AttributeError
    end in
  let? published :=
    match entry_published entry with
    | Some p => Return p
    | None => Raise AttributeError
    end in
  let? link :=
    match entry_link entry with
    | Some (Some href) => Return href
    | Some None => Raise KeyError
    | None => Raise TypeError
    end in
  let? entry_date :=
    match strptime_iso published with
    | Some dt => Return dt
    | None => Raise ValueError
    end in
  Return (title, published, link, entry_date).

Fixpoint filter_loop `{Library} (param_entries : list Entry)
    (filter_by filter_value : option string) (after_dt before_dt : option date)
    (filtered_videos : list Video) : result (list Video) :=
  match param_entries with
  | [] => Return filtered_videos
  | entry :: rest =>
      let? fields := read_entry entry in
      let '(title, published, link, entry_date) := fields in
      let? keep :=
        passes filter_by filter_value after_dt before_dt title entry_date in
      if keep then
        filter_loop rest filter_by filter_value after_dt before_dt
          (filtered_videos
             ++ [{| title := title; published := published; link := link |}])
      else
        filter_loop rest filter_by filter_value after_dt before_dt
          filtered_videos
  end.

Definition filter_videos `{Library} (param_entries : list Entry)
    (filter_by filter_value after_date before_date : option string)
    : result (list Video) :=
  let? after_dt := parse_bound after_date in
  let? before_dt := parse_bound before_date in
  filter_loop param_entries filter_by filter_value after_dt before_dt [].

(** ** The main block: determining the channel identifier

    Lines 536-556, the branch without [--channel-id]: the cache is
    consulted first, the page is fetched on a miss, and a found identifier
    is cached. *)

(** [str(v)] as an f-string renders it *)
Definition py_str `{Library} (v : json) : string :=
  match v with
  | JStr s => s
  | _ => py_repr v
  end.

Definition of_optional_str (o : option string) : json :=
  match o with
  | Some s => JStr s
  | None => JNull
  end.

Definition lift_result {A} (r : result A) : M A := λ w, (r, w).

Definition when (b : bool) (m : M unit) : M unit := if b then m else ret tt.

(** The branch taken on a cache miss: fetch the page, extract, cache. *)
Definition resolve_from_page `{Library} (youtube_url : string)
    (use_cache : bool) : M json :=
  let! source_code := get_youtube_source_code youtube_url in
  if match source_code with Some (_ :: _) => true | _ => false end then
    let! channel_id := lift_result (get_youtube_channel_id source_code) in
    when (truthy (of_optional_str channel_id) && use_cache)
         (match channel_id with
          | Some c => cache_channel_id youtube_url c
          | None => ret tt
          end);;
    ret (of_optional_str channel_id)
  else
    print "Error: Could not fetch YouTube page content.";;
    print "Suggestion: Check the URL format (e.g., https://www.youtube.com/channel/CHANNEL_ID)";;
    raise (SystemExit 1).

Definition resolve_channel_id `{Library} (youtube_url : string)
    (no_cache quiet_mode : bool) : M json :=
  let use_cache := negb no_cache in
  let! channel_id := get_cached_channel_id youtube_url use_cache in
  if truthy channel_id then
    when (negb quiet_mode)
         (print ("Using cached channel ID: " +:+ py_str channel_id));;
    ret channel_id
  else resolve_from_page youtube_url use_cache.

(** ** Vocabulary of the statements *)

(** The [content] of the first [og:url] meta tag. *)
Definition og_url (soup : list Tag) : option string :=
  soup_find "meta" "property" "og:url" soup ≫= λ t, attrs t !! "content".

(** The first [og:url] meta tag, when there is one, has a [content]. *)
Definition og_url_well_formed (soup : list Tag) : Prop :=
  ∀ t, soup_find "meta" "property" "og:url" soup = Some t →
       is_Some (attrs t !! "content").

(** What one script tag yields: the [channel_id] pattern first, the
    [channelId] pattern when that one is not found. *)
Definition script_id (script : Tag) : option string :=
  match re.search re_channel_id (markup script) with
  | Some g => Some g
  | None => re.search re_channelId (markup script)
  end.

(** [g] comes from the first script tag that yields anything. *)
Definition first_script_match (scripts : list Tag) (g : string) : Prop :=
  ∃ pre s post,
    scripts = pre ++ s :: post
    ∧ Forall (λ t, script_id t = None) pre
    ∧ script_id s = Some g.

(** The script scan as the specification words it: the first match of
    either pattern, in document order. *)
Fixpoint spec_scan_scripts (script_tags : list Tag) : option string :=
  match script_tags with
  | [] => None
  | script :: rest =>
      match re.search_any [re_channel_id; re_channelId] (markup script) with
      | Some g => Some g
      | None => spec_scan_scripts rest
      end
  end.

Definition spec_extract_channel_id (soup : list Tag) : option string :=
  match og_url soup ≫= re.search re_og_channel with
  | Some g => Some g
  | None => spec_scan_scripts (soup_find_all "script" soup)
  end.

(** The dictionary [load_cache] returns, when it returns one: empty for
    a missing, unreadable or malformed file. *)
Definition cache_dict (s : system) : option (gmap string json) :=
  match cache_file s with
  | Absent | Unreadable | Malformed => Some ∅
  | Parsed (JDict d) => Some d
  | _ => None
  end.

(** The calendar date of the entry's [published] text. *)
Definition published_date `{Library} (e : Entry) : option date :=
  dt_date <$> (entry_published e ≫= strptime_iso).

(** An entry that has a title, a link with an [href] and a [published]
    text that parses. *)
Definition well_formed_entry `{Library} (e : Entry) : Prop :=
  is_Some (entry_title e)
  ∧ is_Some (published_date e)
  ∧ ∃ href, entry_link e = Some (Some href).

(** The record appended for a retained entry. *)
Definition video_of (e : Entry) : Video :=
  {| title := default "" (entry_title e);
     published := default "" (entry_published e);
     link := default "" (entry_link e ≫= id) |}.

(** The four predicates of the filter criteria, each inactive when its
    criterion is not given. *)
Definition after_ok (after_dt : option date) (d : date) : bool :=
  match after_dt with
  | Some a => date_leb a d
  | None => true
  end.

Definition before_ok (before_dt : option date) (d : date) : bool :=
  match before_dt with
  | Some b => date_leb d b
  | None => true
  end.

Definition exact_date_ok `{Library} (filter_by filter_value : option string)
    (d : date) : bool :=
  if bool_decide (filter_by = Some "date") then
    match filter_value ≫= strptime_ymd with
    | Some filter_date => date_eqb d (dt_date filter_date)
    | None => false
    end
  else true.

Definition title_ok `{Library} (filter_by filter_value : option string)
    (t : string) : bool :=
  if bool_decide (filter_by = Some "title") then
    match filter_value with
    | Some v => contains (str_lower v) (str_lower t)
    | None => false
    end
  else true.

(** The conjunction of the active predicates on an entry. *)
Definition retained `{Library} (filter_by filter_value : option string)
    (after_dt before_dt : option date) (e : Entry) : bool :=
  match entry_title e, published_date e with
  | Some t, Some d =>
      after_ok after_dt d && before_ok before_dt d
      && exact_date_ok filter_by filter_value d
      && title_ok filter_by filter_value t
  | _, _ => false
  end.

(** The legacy criterion has the value its mode needs. *)
Definition well_formed_criteria `{Library}
    (filter_by filter_value : option string) : Prop :=
  (filter_by = Some "date" → is_Some (filter_value ≫= strptime_ymd))
  ∧ (filter_by = Some "title" → is_Some filter_value).

(** The part of the system the fetchers leave alone. *)
Definition cache_part (s : system)
    : file_state * option write_failure * string :=
  (cache_file s, cache_write_error s, now_isoformat s).

(** What a lookup makes of the record found for a reference. *)
Definition normalize (cache_entry : json) : json :=
  if truthy cache_entry then
    match cache_entry with
    | JDict d => default cache_entry (d !! "channel_id")
    | _ => cache_entry
    end
  else JNull.

(** The word the retry message starts with. *)
Definition retry_what (e : exn) : string :=
  if isinstance_Timeout e then "Timeout" else "Connection error".

(** The world after a failed attempt left the system as [s'] and the
    wrapper announced and took its backoff wait. *)
Definition after_backoff (s' : system) (msg : string) (wait_time : Z)
    (w : world) : world :=
  {| sys := s'; slept := slept w ++ [wait_time]; stdout := stdout w ++ [msg] |}.

Definition printed (lines : list string) (w : world) : world :=
  {| sys := sys w; slept := slept w; stdout := stdout w ++ lines |}.

(** The identifier shape with the two-character prefix [UC]. *)
Definition has_UC_prefix (s : string) : bool := String.prefix "UC" s.

Fixpoint all_chars (cls : ascii → bool) (s : string) : bool :=
  match s with
  | EmptyString => true
  | String c s' => cls c && all_chars cls s'
  end.

(** The shape the patterns of the script capture: one of the letters [U]
    and [C], then one or more URL-safe characters. *)
Definition captured_shape (g : string) : bool :=
  match g with
  | String c run =>
      re.set_UC c && negb (String.eqb run "") && all_chars re.set_word run
  | EmptyString => false
  end.

(** ** A small implementation of the library

    Used to run the definitions on concrete inputs: the HTML and XML
    parsers return a given tree, the date parsers accept the fixed-width
    forms [YYYY-MM-DD] and [YYYY-MM-DDTHH:MM:SS+HH:MM], [lower] acts on
    ASCII letters. *)
Module Sample.

Definition digit (c : ascii) : option Z :=
  let n := N_of_ascii c in
  if (48 <=? n)%N && (n <=? 57)%N then Some (Z.of_N n - 48)%Z else None.

(** exactly [n] digits *)
Fixpoint number (n : nat) (acc : Z) (s : string) : option (Z * string) :=
  match n with
  | O => Some (acc, s)
  | S n' =>
      match s with
      | String c s' => d ← digit c; number n' (10 * acc + d)%Z s'
      | EmptyString => None
      end
  end.

Definition expect (c : ascii) (s : string) : option string :=
  match s with
  | String c' s' => if Ascii.eqb c c' then Some s' else None
  | EmptyString => None
  end.

Definition ymd (s : string) : option (date * string) :=
  '(y, s) ← number 4 0 s;
  s ← expect "-" s;
  '(m, s) ← number 2 0 s;
  s ← expect "-" s;
  '(d, s) ← number 2 0 s;
  if (1 <=? y)%Z && (1 <=? m)%Z && (m <=? 12)%Z && (1 <=? d)%Z && (d <=? 31)%Z
  then Some (Date y m d, s) else None.

Definition parse_ymd (s : string) : option datetime :=
  '(d, s) ← ymd s;
  match s with
  | EmptyString =>
      Some {| dt_date := d; dt_seconds := 0; dt_utcoffset := None |}
  | _ => None
  end.

Definition parse_iso (s : string) : option datetime :=
  '(d, s) ← ymd s;
  s ← expect "T" s;
  '(hh, s) ← number 2 0 s;
  s ← expect ":" s;
  '(mm, s) ← number 2 0 s;
  s ← expect ":" s;
  '(ss, s) ← number 2 0 s;
  match s with
  | String sign s =>
      '(oh, s) ← number 2 0 s;
      s ← expect ":" s;
      '(om, s) ← number 2 0 s;
      let off := (oh * 3600 + om * 60)%Z in
      match s with
      | EmptyString =>
          if Ascii.eqb sign "+" then
            Some {| dt_date := d; dt_seconds := (hh * 3600 + mm * 60 + ss)%Z;
                    dt_utcoffset := Some off |}
          else if Ascii.eqb sign "-" then
            Some {| dt_date := d; dt_seconds := (hh * 3600 + mm * 60 + ss)%Z;
                    dt_utcoffset := Some (- off)%Z |}
          else None
      | _ => None
      end
  | EmptyString => None
  end.

Definition lower_char (c : ascii) : ascii :=
  if re.in_range "A" "Z" c then ascii_of_N (N_of_ascii c + 32) else c.

Fixpoint lower (s : string) : string :=
  match s with
  | EmptyString => EmptyString
  | String c s' => String (lower_char c) (lower s')
  end.

Definition library (page : list Tag) (feed : list Entry) : Library :=
  {| BeautifulSoup_html := λ _, page;
     lxml_installed := true;
     BeautifulSoup_xml_entries := λ _, feed;
     strptime_ymd := parse_ymd;
     strptime_iso := parse_iso;
     str_lower := lower;
     py_repr := λ _, "<value>" |}.

Definition tag (n : string) (a : list (string * string)) (m : string) : Tag :=
  {| name := n; attrs := list_to_map a; markup := m |}.

End Sample.

(** ** Inputs of the examples *)
Module Examples.

(** A page whose canonical URL names an identifier that starts with a
    single [C]. *)
Definition page_single_C : list Tag :=
  [Sample.tag "meta"
     [("property", "og:url");
      ("content", "https://www.youtube.com/channel/Cabc")]
     "<meta/>"].

(** A page with one script that holds [channelId] before [channel_id]. *)
Definition page_two_patterns : list Tag :=
  [Sample.tag "script" []
     ("<script>{" +:+ quoted "channelId" +:+ ":" +:+ quoted "UCfirst" +:+ ","
        +:+ quoted "channel_id" +:+ ":" +:+ quoted "UCsecond"
        +:+ "}</script>")].

(** A fetch function scripted on the number of requests issued so far:
    a timeout, a connection error, then the body [ok]. *)
Definition flaky (s : system) : result string * system :=
  (match length (requests_log s) with
   | 0 => Raise Timeout
   | 1 => Raise ConnectionError
   | _ => Return "ok"
   end, log_request "https://example.org/" s).

(** An internet that answers every request with the given reply. *)
Definition system_replying (r : reply) : system :=
  {| internet := λ _ _, r;
     requests_log := [];
     cache_path := "/home/user/.youtuberss/cache.json";
     cache_file := Absent;
     cache_write_error := None;
     cache_unlink_error := None;
     now_isoformat := "2024-01-01T00:00:00" |}.

Definition world_of (s : system) : world :=
  {| sys := s; slept := []; stdout := [] |}.

(** A system whose cache file holds the given JSON value and whose
    network is down. *)
Definition system_with_cache (j : json) : system :=
  {| internet := λ _ _, Failure ConnectionError;
     requests_log := [];
     cache_path := "/home/user/.youtuberss/cache.json";
     cache_file := Parsed j;
     cache_write_error := None;
     cache_unlink_error := None;
     now_isoformat := "2024-01-01T00:00:00" |}.

Definition legacy_cache : gmap string json :=
  {[ "https://x/@foo" := JStr "UC999" ]}.

Definition current_cache : gmap string json :=
  {[ "https://x/@foo" := cache_record "UC999" "2023-12-31T10:00:00" ]}.

(** A page with the identifier in a script payload and no canonical
    URL. *)
Definition page_script_only : list Tag :=
  [Sample.tag "script" []
     ("<script>{" +:+ quoted "channel_id" +:+ ":" +:+ quoted "UCabc123"
        +:+ "}</script>")].

Definition entry (t p : string) : Entry :=
  {| entry_title := Some t;
     entry_published := Some p;
     entry_link := Some (Some ("https://www.youtube.com/watch?v=" +:+ t)) |}.

Definition feed : list Entry :=
  [entry "Gamma" "2023-07-04T09:00:00+00:00";
   entry "Beta" "2023-06-30T23:59:59+00:00";
   entry "Alpha" "2023-01-01T00:00:00+00:00";
   entry "Omega" "2022-12-31T23:59:59+00:00"].

Definition broken_feed : list Entry :=
  [entry "Gamma" "2023-07-04T09:00:00+00:00";
   entry "Beta" "yesterday"].

Definition empty_id_cache : gmap string json :=
  {[ "https://x/@foo" := JStr "" ]}.

End Examples.

(** ** URL builder *)

(** The main block hands [create_rss_feed_url] whatever it holds in
    [channel_id]: the given or extracted text, or the cached value. *)
Definition create_rss_feed_url `{Library} (cid : json) : option string :=
  if truthy cid then
    Some ("https://www.youtube.com/feeds/videos.xml?channel_id=" +:+ py_str cid)
  else None.

(** ** Clearing the cache *)

(** [cache_file.unlink()] *)
Definition unlink_cache_file : M unit :=
  λ w, match cache_unlink_error (sys w) with
       | Some msg => (Raise (OSError msg), w)
       | None => (Return tt, set_sys (set_cache_file Absent (sys w)) w)
       end.

Definition clear_cache : M unit :=
  let! cache_file_path := get_cache_file_path in
  let! there := path_exists in
  if there then
    unlink_cache_file;;
    print ("Cache cleared: " +:+ cache_file_path)
  else print "No cache file to clear.".

(** [clear_cache] has something to remove. *)
Definition file_there (f : file_state) : bool :=
  match f with
  | Unreadable | Malformed | Undecodable | Parsed _ => true
  | _ => false
  end.

(** ** More vocabulary *)

(** [needle] stands somewhere in [text]. *)
Definition occurs (needle text : string) : Prop :=
  ∃ before after, text = before +:+ needle +:+ after.

(** The text of a key and its value as the script payloads hold it:
    ["key":"value"]. *)
Definition json_field (key value : string) : string :=
  quoted key +:+ ":" +:+ quoted value.

(** The script tags of a page. *)
Definition is_script_of (soup : list Tag) (script : Tag) : Prop :=
  script ∈ soup ∧ name script = "script".

(** The waits of [n] consecutive backoffs that start at attempt [k]:
    [b ^ k], [b ^ (k + 1)], ... *)
Definition backoff_waits (b k : Z) (n : nat) : list Z :=
  (λ i, (b ^ (k + Z.of_nat i))%Z) <$> seq 0 n.

(** Every reply to a GET of [url] is a transient failure. *)
Definition network_down (url : string) (s : system) : Prop :=
  ∀ n, ∃ e, internet s url n = Failure e ∧ transient e = true.

(** Inputs of the further examples. *)
Module MoreExamples.

(** A page whose canonical URL has no [content]. *)
Definition page_without_content : list Tag :=
  [Sample.tag "meta" [("property", "og:url")] "<meta/>"].

(** A system whose network is down and whose cache file is missing. *)
Definition offline : system :=
  Examples.system_replying (Failure ConnectionError).

(** A system that answers every request with a page. *)
Definition online : system :=
  Examples.system_replying (Response 200 [Byte.x3c]).


(** An entry without a [title] element. *)
Definition untitled : Entry :=
  {| entry_title := None;
     entry_published := Some "2023-07-04T09:00:00+00:00";
     entry_link := Some (Some "https://www.youtube.com/watch?v=x") |}.

(** A network on which every request is interrupted from the keyboard. *)
Definition interrupted : system :=
  Examples.system_replying (Failure (OtherException "KeyboardInterrupt")).




(** A page whose canonical URL is a handle path and whose scripts hold
    no identifier; the value in the second script starts with [X]. *)
Definition page_handle_only : list Tag :=
  [Sample.tag "meta"
     [("property", "og:url");
      ("content", "https://www.youtube.com/@somechannel")]
     "<meta/>";
   Sample.tag "script" []
     ("<script>{" +:+ quoted "videoId" +:+ ":" +:+ quoted "UCabc"
        +:+ "}</script>");
   Sample.tag "script" []
     ("<script>{" +:+ quoted "channelId" +:+ ":" +:+ quoted "Xabc123"
        +:+ "}</script>")].

End MoreExamples.

(** * Theorems *)

(** ** Regular expressions *)

Lemma matches_plus_unfold {R} cls items c s (k : string → option R) :
  re.matches (re.Plus cls :: items) (String c s) k
  = if cls c then
      match re.matches (re.Plus cls :: items) s k with
      | Some r => Some r
      | None => re.matches items s k
      end
    else None.
Proof. reflexivity. Qed.

(** A successful match hands some rest of the text to its continuation. *)
Lemma matches_continuation {R} items s (k : string → option R) r :
  re.matches items s k = Some r → ∃ s', k s' = Some r.
Proof.
  revert s. induction items as [|[c|cls|cls] items IH]; intros s.
  - simpl. eauto.
  - destruct s as [|c' s]; simpl; [done|]. destruct (Ascii.eqb c c'); eauto.
    done.
  - destruct s as [|c' s]; simpl; [done|]. destruct (cls c'); eauto. done.
  - induction s as [|c' s IHs]; [done|].
    rewrite matches_plus_unfold. destruct (cls c'); [|done].
    destruct (re.matches (re.Plus cls :: items) s k) eqn:Hmore; eauto.
Qed.

(** A greedy [+] takes a non-empty run of the class. *)
Lemma matches_plus_inv {R} cls items s (k : string → option R) r :
  re.matches (re.Plus cls :: items) s k = Some r →
  ∃ run rest,
    s = run +:+ rest ∧ run ≠ EmptyString ∧ all_chars cls run = true
    ∧ re.matches items rest k = Some r.
Proof.
  induction s as [|c s IH]; [done|].
  rewrite matches_plus_unfold. destruct (cls c) eqn:Hc; [|done].
  destruct (re.matches (re.Plus cls :: items) s k) eqn:Hmore.
  - intros [= ->]. destruct (IH eq_refl) as (run & rest & -> & _ & Hall & Hk).
    exists (String c run), rest. simpl. by rewrite Hc, Hall.
  - intros Hk. exists (String c EmptyString), s. simpl. by rewrite Hc.
Qed.

Lemma take_app_length a b :
  re.take (String.length (a +:+ b) - String.length b) (a +:+ b) = a.
Proof.
  assert (Hlen : ∀ a, String.length (a +:+ b)
                      = String.length a + String.length b).
  { clear a. induction a as [|c a IH]; simpl; [done|]. by rewrite IH. }
  rewrite Hlen. replace (String.length a + String.length b - String.length b)
    with (String.length a) by lia.
  induction a as [|c a IH]; simpl; [by destruct b|]. by rewrite IH.
Qed.

(** The group [([UC][a-zA-Z0-9_-]+)] captures a text of that shape,
    whatever precedes and follows it in the pattern. *)
Lemma match_at_shape before after s g :
  re.match_at
    (re.Pattern before [re.Set_ re.set_UC; re.Plus re.set_word] after) s
  = Some g →
  captured_shape g = true.
Proof.
  unfold re.match_at. simpl re.before. simpl re.group. simpl re.after.
  intros (s1 & Hgroup)%matches_continuation.
  destruct s1 as [|c s1]; [done|].
  change (re.matches [re.Set_ re.set_UC; re.Plus re.set_word] (String c s1) ?k)
    with (if re.set_UC c then re.matches [re.Plus re.set_word] s1 k else None)
    in Hgroup.
  destruct (re.set_UC c) eqn:Hc; [|done].
  apply matches_plus_inv in Hgroup as (run & rest & -> & Hrun & Hall & Hk).
  simpl in Hk. apply matches_continuation in Hk as (_ & [= <-]).
  unfold re.captured.
  change (String c (run +:+ rest)) with (String c run +:+ rest).
  rewrite take_app_length. simpl. rewrite Hc, Hall.
  by destruct run.
Qed.

Lemma search_match_at p s g :
  re.search p s = Some g → ∃ s', re.match_at p s' = Some g.
Proof.
  induction s as [|c s IH]; simpl.
  - destruct (re.match_at p "") eqn:Hm; [|done]. intros [= ->]. eauto.
  - destruct (re.match_at p (String c s)) eqn:Hm; [|done].
    intros [= ->]. eauto.
Qed.

(** ** Identifier extraction *)

Lemma scan_scripts_cons script rest :
  scan_scripts (script :: rest)
  = match script_id script with
    | Some g => Some g
    | None => scan_scripts rest
    end.
Proof.
  unfold script_id; simpl.
  destruct (re.search re_channel_id (markup script)); [reflexivity|].
  destruct (re.search re_channelId (markup script)); reflexivity.
Qed.

Lemma scan_scripts_Some scripts g :
  scan_scripts scripts = Some g ↔ first_script_match scripts g.
Proof.
  induction scripts as [|s rest IH]; split.
  - discriminate.
  - intros (pre & s & post & Heq & _). by destruct pre.
  - rewrite scan_scripts_cons. destruct (script_id s) as [g'|] eqn:Hs.
    + intros [= ->]. exists [], s, rest. by repeat split.
    + intros (pre & s' & post & -> & Hpre & Hs')%IH.
      exists (s :: pre), s', post. repeat split; [|done]. by constructor.
  - intros (pre & s' & post & Heq & Hpre & Hs').
    rewrite scan_scripts_cons. destruct pre as [|p pre]; simplify_eq/=.
    + by rewrite Hs'.
    + inversion Hpre as [|?? Hp Hpre']; subst. rewrite Hp.
      apply IH. by exists pre, s', post.
Qed.

Lemma scan_scripts_None scripts :
  scan_scripts scripts = None ↔ Forall (λ t, script_id t = None) scripts.
Proof.
  induction scripts as [|s rest IH]; [by split|].
  rewrite scan_scripts_cons, Forall_cons.
  destruct (script_id s); [|rewrite IH]; intuition congruence.
Qed.

Lemma extract_channel_id_method2 soup :
  og_url_well_formed soup →
  og_url soup ≫= re.search re_og_channel = None →
  extract_channel_id soup
  = Return (scan_scripts (soup_find_all "script" soup)).
Proof.
  unfold og_url_well_formed, og_url, extract_channel_id. intros Hwf Hno.
  destruct (soup_find "meta" "property" "og:url" soup) as [t|]; [|done].
  destruct (Hwf t eq_refl) as [url Hurl]. simpl in Hno.
  rewrite Hurl in Hno |- *. simpl in Hno. rewrite Hno.
  by destruct (re.search re_og_handle url).
Qed.

(** C10: applied to an absent page document, the extraction returns absent
    and raises nothing. *)
Theorem get_youtube_channel_id_absent `{Library} :
  get_youtube_channel_id None = Return None.
Proof. reflexivity. Qed.

(** C1, at the failing input: a page whose canonical URL is
    [https://www.youtube.com/channel/Cabc] makes the extraction return
    [Cabc], which does not start with the two characters [UC]. *)
Theorem extraction_returns_single_letter_prefix :
  extract_channel_id Examples.page_single_C = Return (Some "Cabc")
  ∧ get_youtube_channel_id
      (H := Sample.library Examples.page_single_C []) (Some [])
    = Return (Some "Cabc")
  ∧ has_UC_prefix "Cabc" = false.
Proof. by vm_compute. Qed.

(** C2 as stated fails: with [channelId] before [channel_id] in one script,
    the first identifier in document order is [UCfirst], and the code
    returns [UCsecond]. *)
Lemma extraction_first_in_document_order_fails :
  spec_extract_channel_id Examples.page_two_patterns = Some "UCfirst"
  ∧ extract_channel_id Examples.page_two_patterns = Return (Some "UCsecond")
  ∧ extract_channel_id Examples.page_two_patterns
    ≠ Return (spec_extract_channel_id Examples.page_two_patterns).
Proof. by vm_compute. Qed.

(** C2, amended: when the first [og:url] meta tag (if any) has a content,
    a [/channel/<id>] segment in it is returned at once; otherwise, also
    when the content holds a handle path, the result is that of the script
    scan, which returns what the first script tag with a match yields, the
    [channel_id] pattern taking precedence over [channelId] within that
    tag, and absent when no script tag has a match. *)
Theorem extraction_strategy_order (soup : list Tag) :
  og_url_well_formed soup →
  (∀ url g,
      og_url soup = Some url → re.search re_og_channel url = Some g →
      extract_channel_id soup = Return (Some g))
  ∧ (∀ url h,
      og_url soup = Some url → re.search re_og_channel url = None →
      re.search re_og_handle url = Some h →
      extract_channel_id soup
      = Return (scan_scripts (soup_find_all "script" soup)))
  ∧ (og_url soup ≫= re.search re_og_channel = None →
      extract_channel_id soup
      = Return (scan_scripts (soup_find_all "script" soup)))
  ∧ (∀ scripts g,
      scan_scripts scripts = Some g ↔ first_script_match scripts g)
  ∧ (∀ scripts,
      scan_scripts scripts = None
      ↔ Forall (λ t, script_id t = None) scripts).
Proof.
  intros Hwf. split_and!.
  - intros url g Hurl Hg. unfold og_url, extract_channel_id in *.
    destruct (soup_find "meta" "property" "og:url" soup) as [t|]; [|done].
    simpl in Hurl. by rewrite Hurl, Hg.
  - intros url h Hurl Hno _. apply extract_channel_id_method2; [done|].
    by rewrite Hurl.
  - by apply extract_channel_id_method2.
  - apply scan_scripts_Some.
  - apply scan_scripts_None.
Qed.

Lemma extraction_strategy_order_witness :
  og_url_well_formed Examples.page_two_patterns
  ∧ extract_channel_id Examples.page_two_patterns
    = Return (scan_scripts (soup_find_all "script" Examples.page_two_patterns)).
Proof.
  assert (Hwf : og_url_well_formed Examples.page_two_patterns).
  { intros t Ht. vm_compute in Ht. discriminate Ht. }
  split; [exact Hwf|].
  apply (extraction_strategy_order Examples.page_two_patterns Hwf).
  reflexivity.
Defined.

(** What the patterns do guarantee: the extraction only returns a text
    that starts with one of the letters [U] and [C] and goes on with one or
    more URL-safe characters. *)
Lemma extract_channel_id_shape soup g :
  extract_channel_id soup = Return (Some g) → captured_shape g = true.
Proof.
  assert (Hscan : ∀ scripts,
             scan_scripts scripts = Some g → captured_shape g = true).
  { induction scripts as [|s rest IH]; [done|]. simpl.
    destruct (re.search re_channel_id (markup s)) eqn:H1.
    - intros [= ->]. apply search_match_at in H1 as [s' H1].
      by eapply match_at_shape.
    - destruct (re.search re_channelId (markup s)) eqn:H2; [|done].
      intros [= ->]. apply search_match_at in H2 as [s' H2].
      by eapply match_at_shape. }
  unfold extract_channel_id.
  destruct (soup_find "meta" "property" "og:url" soup) as [t|].
  - destruct (attrs t !! "content") as [url|]; [|done].
    destruct (re.search re_og_channel url) eqn:Hch.
    + intros [= ->]. apply search_match_at in Hch as [s' Hch].
      by eapply match_at_shape.
    + destruct (re.search re_og_handle url); intros [= ?]; by eapply Hscan.
  - intros [= ?]. by eapply Hscan.
Qed.

(** ** Retrying fetcher *)

Section Retry.
Context {A : Type} (f : system → result A * system).
Implicit Types (w : world) (m b k : Z) (n : nat).

(** An attempt that returns ends the loop with its value. *)
Lemma retry_loop_return m b n k w v s' :
  f (sys w) = (Return v, s') →
  retry_loop (lift_sys f) m b (S n) k w = (Return (Some v), set_sys s' w).
Proof.
  intros Hf. simpl. unfold try_except, bind, lift_sys. by rewrite Hf.
Qed.

(** A transient failure before the last attempt: the wrapper prints,
    waits [b ^ k], and goes on with the next attempt. *)
Lemma retry_loop_backoff m b n k w e s' :
  f (sys w) = (Raise e, s') →
  transient e = true →
  (k < m - 1)%Z →
  (0 ≤ b ^ k)%Z →
  retry_loop (lift_sys f) m b (S n) k w
  = retry_loop (lift_sys f) m b n (k + 1)
      (after_backoff s' (retry_message (retry_what e) (b ^ k) k m)
                     (b ^ k) w).
Proof.
  intros Hf He Hk Hb. simpl. unfold try_except at 1, bind at 1, lift_sys at 1.
  rewrite Hf. unfold transient, retry_what in *.
  apply Z.ltb_lt in Hk. apply Z.ltb_ge in Hb.
  destruct (isinstance_Timeout e) eqn:Ht; rewrite Hk.
  - unfold bind at 1, print. unfold bind at 1, time_sleep. simpl.
    by rewrite Hb.
  - simpl in He. rewrite He. unfold bind at 1, print.
    unfold bind at 1, time_sleep. simpl. by rewrite Hb.
Qed.

(** A failure that is not transient, or a transient failure of the last
    attempt, leaves the loop as it is: no message, no wait. *)
Lemma retry_loop_propagate m b n k w e s' :
  f (sys w) = (Raise e, s') →
  transient e = false ∨ (m - 1 ≤ k)%Z →
  retry_loop (lift_sys f) m b (S n) k w = (Raise e, set_sys s' w).
Proof.
  intros Hf He. simpl. unfold try_except, bind, lift_sys. rewrite Hf.
  unfold transient in He.
  destruct He as [[Ht Hc]%orb_false_elim | Hk%Z.ltb_ge].
  - by rewrite Ht, Hc.
  - rewrite Hk. by destruct (isinstance_Timeout e), (isinstance_ConnectionError e).
Qed.

End Retry.

Lemma transient_HTTPError status : transient (HTTPError status) = false.
Proof. reflexivity. Qed.

(** C3: with three attempts and base two, after two transient failures the
    wrapper has waited [2 ^ 0] and [2 ^ 1]; a third attempt that returns
    gives its value, and a third transient failure is raised to the caller
    with no further wait. *)
Theorem retry_policy_three_attempts {A} (f : system → result A * system)
    (w : world) (e1 e2 : exn) (s1 s2 : system) :
  f (sys w) = (Raise e1, s1) → transient e1 = true →
  f s1 = (Raise e2, s2) → transient e2 = true →
  let announced :=
    [retry_message (retry_what e1) 1 0 3; retry_message (retry_what e2) 2 1 3]
  in
  (∀ v s3,
      f s2 = (Return v, s3) →
      retry_request (lift_sys f) 3 2 w
      = (Return (Some v),
         {| sys := s3; slept := slept w ++ [2 ^ 0; 2 ^ 1]%Z;
            stdout := stdout w ++ announced |}))
  ∧ (∀ e3 s3,
      f s2 = (Raise e3, s3) → transient e3 = true →
      retry_request (lift_sys f) 3 2 w
      = (Raise e3,
         {| sys := s3; slept := slept w ++ [2 ^ 0; 2 ^ 1]%Z;
            stdout := stdout w ++ announced |})).
Proof.
  intros H1 He1 H2 He2 announced. unfold retry_request.
  change (Z.to_nat 3) with 3.
  rewrite (retry_loop_backoff f 3 2 2 0 w e1 s1) by (done || lia).
  rewrite (retry_loop_backoff f 3 2 1 (0 + 1) _ e2 s2) by (done || lia).
  split.
  - intros v s3 H3. rewrite (retry_loop_return f 3 2 0 _ _ v s3) by done.
    unfold set_sys, after_backoff; simpl. by rewrite <- !app_assoc.
  - intros e3 s3 H3 He3.
    rewrite (retry_loop_propagate f 3 2 0 _ _ e3 s3) by (done || right; lia).
    unfold set_sys, after_backoff; simpl. by rewrite <- !app_assoc.
Qed.

Lemma retry_policy_three_attempts_witness :
  let w := Examples.world_of (Examples.system_replying (Failure Timeout)) in
  fst (retry_request (lift_sys Examples.flaky) 3 2 w) = Return (Some "ok")
  ∧ slept (snd (retry_request (lift_sys Examples.flaky) 3 2 w)) = [1; 2]%Z.
Proof.
  intros w.
  destruct (retry_policy_three_attempts Examples.flaky w Timeout ConnectionError
              (log_request "https://example.org/" (sys w))
              (log_request "https://example.org/"
                 (log_request "https://example.org/" (sys w))))
    as [Hok _]; [reflexivity..|].
  rewrite (Hok "ok" _ eq_refl). split; reflexivity.
Defined.

Lemma requests_get_content_http_error url s status content :
  internet s url (length (requests_log s)) = Response status content →
  (400 ≤ status < 600)%Z →
  requests_get_content url s = (Raise (HTTPError status), log_request url s).
Proof.
  intros Hreply [Hlo Hhi]. unfold requests_get_content. rewrite Hreply.
  apply Z.leb_le in Hlo. apply Z.ltb_lt in Hhi. by rewrite Hlo, Hhi.
Qed.

(** C4: an attempt answered with a status from 400 to 599 ends the retry
    loop at once, whatever the attempt number: the [HTTPError] with that
    status is raised, the only request of the attempt is logged, nothing is
    printed or waited for.  Both fetchers then return [None]; for status
    429 the feed fetcher prints the rate-limit message. *)
Theorem http_error_not_retried `{Library} (url : string) (w : world)
    (status : Z) (content : list Byte.byte) :
  internet (sys w) url (length (requests_log (sys w)))
  = Response status content →
  (400 ≤ status < 600)%Z →
  let w' := set_sys (log_request url (sys w)) w in
  (∀ m b n k,
      retry_loop (_fetch url) m b (S n) k w = (Raise (HTTPError status), w'))
  ∧ retry_request (_fetch url) 3 2 w = (Raise (HTTPError status), w')
  ∧ (∃ lines, get_youtube_source_code url w = (Return None, printed lines w'))
  ∧ (status = 429%Z →
     ∀ limit,
       fetch_rss_feed_content url limit w
       = (Return None,
          printed
            ["Error: Rate limited (429) while fetching RSS feed: " +:+ url;
             "Suggestion: You're making too many requests. Wait a while before trying again."]
            w')).
Proof.
  intros Hreply Hstatus w'.
  pose proof (requests_get_content_http_error url (sys w) status content
                Hreply Hstatus) as Hget.
  assert (Hloop : ∀ m b n k,
             retry_loop (_fetch url) m b (S n) k w
             = (Raise (HTTPError status), w')).
  { intros. apply retry_loop_propagate; [done | by left]. }
  assert (Hretry : retry_request (_fetch url) 3 2 w
                   = (Raise (HTTPError status), w')).
  { unfold retry_request. change (Z.to_nat 3) with 3. apply Hloop. }
  split_and!; [done | done | |].
  - unfold get_youtube_source_code, try_except. rewrite Hretry. simpl.
    destruct (status =? 404)%Z; unfold bind, print; simpl.
    + eexists [_; _]. unfold printed. simpl. by rewrite <- app_assoc.
    + by eexists [_].
  - intros -> limit. unfold fetch_rss_feed_content, try_except.
    unfold bind at 1. rewrite Hretry. simpl. unfold bind, print, printed.
    simpl. by rewrite <- app_assoc.
Qed.

Lemma http_error_not_retried_witness :
  let w := Examples.world_of (Examples.system_replying (Response 429 [])) in
  fetch_rss_feed_content (H := Sample.library [] []) "https://example.org/feed" 5 w
  = (Return None,
     {| sys := log_request "https://example.org/feed" (sys w);
        slept := [];
        stdout :=
          ["Error: Rate limited (429) while fetching RSS feed: https://example.org/feed";
           "Suggestion: You're making too many requests. Wait a while before trying again."] |}).
Proof.
  intros w.
  destruct (http_error_not_retried (H := Sample.library [] [])
              "https://example.org/feed" w 429 [])
    as (_ & _ & _ & Hfeed); [reflexivity | lia |].
  exact (Hfeed eq_refl 5%Z).
Defined.

(** ** Cache store *)

Lemma set_sys_id w : set_sys (sys w) w = w.
Proof. by destruct w. Qed.

(** [load_cache] by the state of the file. *)
Lemma load_cache_eq w :
  load_cache w
  = (match cache_file (sys w) with
     | NoDirectory e => Raise e
     | NoAccess msg => Raise (OSError msg)
     | Absent | Unreadable | Malformed => Return (JDict ∅)
     | Undecodable => Raise UnicodeDecodeError
     | Parsed j => Return j
     end, w).
Proof.
  unfold load_cache, bind, get_cache_file_path, path_exists, read_cache_file,
    ret.
  destruct (cache_file (sys w)) eqn:Hf; simpl; rewrite ?Hf; reflexivity.
Qed.

Lemma load_cache_dict w d :
  cache_dict (sys w) = Some d → load_cache w = (Return (JDict d), w).
Proof.
  rewrite load_cache_eq. unfold cache_dict. intros Hd.
  by destruct (cache_file (sys w)) as [| | | | | |[]]; simplify_eq.
Qed.


Lemma get_cached_channel_id_dict url w d :
  cache_dict (sys w) = Some d →
  get_cached_channel_id url true w
  = (Return (normalize (default JNull (d !! url))), w).
Proof.
  intros Hd. unfold get_cached_channel_id, normalize. simpl.
  unfold bind at 1. rewrite (load_cache_dict w d Hd).
  unfold bind, dict_get, ret.
  destruct (truthy (default JNull (d !! url))); [|done].
  destruct (default JNull (d !! url)) as [| | | | | |rec]; try done.
  by destruct (rec !! "channel_id").
Qed.



Lemma truthy_record_with_identifier rec v :
  rec !! "channel_id" = Some v → truthy (JDict rec) = true.
Proof.
  intros Hrec. simpl. case_bool_decide as Hempty; [|done].
  subst. by rewrite lookup_empty in Hrec.
Qed.

Lemma truthy_JStr c : c ≠ "" → truthy (JStr c) = true.
Proof.
  intros Hc. simpl. destruct (String.eqb_spec c ""); done.
Qed.

Lemma normalize_cache_record c now : normalize (cache_record c now) = JStr c.
Proof. reflexivity. Qed.

Lemma normalize_JStr c : c ≠ "" → normalize (JStr c) = JStr c.
Proof. intros Hc. unfold normalize. by rewrite truthy_JStr. Qed.

Lemma normalize_record rec v :
  rec !! "channel_id" = Some v → normalize (JDict rec) = v.
Proof.
  intros Hrec. unfold normalize.
  rewrite (truthy_record_with_identifier rec v) by done. by rewrite Hrec.
Qed.

Lemma normalize_falsy v : truthy v = false → normalize v = JNull.
Proof. intros Hv. unfold normalize. by rewrite Hv. Qed.

(** C6: with caching enabled, the lookup returns [c] for a bare string
    record [c] and for a structured record whose [channel_id] is [c]; the
    two lookups agree. *)
Theorem lookup_normalizes_both_shapes (url c : string)
    (d_legacy d_current rec : gmap string json) (w_legacy w_current : world) :
  c ≠ "" →
  cache_file (sys w_legacy) = Parsed (JDict d_legacy) →
  d_legacy !! url = Some (JStr c) →
  cache_file (sys w_current) = Parsed (JDict d_current) →
  d_current !! url = Some (JDict rec) →
  rec !! "channel_id" = Some (JStr c) →
  get_cached_channel_id url true w_legacy = (Return (JStr c), w_legacy)
  ∧ get_cached_channel_id url true w_current = (Return (JStr c), w_current)
  ∧ fst (get_cached_channel_id url true w_legacy)
    = fst (get_cached_channel_id url true w_current).
Proof.
  intros Hc Hfl Hl Hfc Hcur Hrec.
  assert (H1 : get_cached_channel_id url true w_legacy
               = (Return (JStr c), w_legacy)).
  { rewrite (get_cached_channel_id_dict url w_legacy d_legacy)
      by (unfold cache_dict; by rewrite Hfl).
    rewrite Hl. cbn [from_option id]. by rewrite normalize_JStr. }
  assert (H2 : get_cached_channel_id url true w_current
               = (Return (JStr c), w_current)).
  { rewrite (get_cached_channel_id_dict url w_current d_current)
      by (unfold cache_dict; by rewrite Hfc).
    rewrite Hcur. cbn [from_option id].
    by rewrite (normalize_record rec (JStr c)). }
  by rewrite H1, H2.
Qed.

Lemma lookup_normalizes_both_shapes_witness :
  let w_legacy :=
    Examples.world_of
      (Examples.system_with_cache (JDict Examples.legacy_cache)) in
  let w_current :=
    Examples.world_of
      (Examples.system_with_cache (JDict Examples.current_cache)) in
  get_cached_channel_id "https://x/@foo" true w_legacy
  = (Return (JStr "UC999"), w_legacy)
  ∧ get_cached_channel_id "https://x/@foo" true w_current
    = (Return (JStr "UC999"), w_current)
  ∧ fst (get_cached_channel_id "https://x/@foo" true w_legacy)
    = fst (get_cached_channel_id "https://x/@foo" true w_current).
Proof.
  intros w_legacy w_current.
  apply (lookup_normalizes_both_shapes "https://x/@foo" "UC999"
           Examples.legacy_cache Examples.current_cache
           (<["channel_id" := JStr "UC999"]>
              (<["timestamp" := JStr "2023-12-31T10:00:00"]> ∅))).
  - discriminate.
  - reflexivity.
  - vm_compute. reflexivity.
  - reflexivity.
  - vm_compute. reflexivity.
  - vm_compute. reflexivity.
Defined.

(** ** Frame properties of the fetchers *)

Lemma requests_get_content_state url s :
  snd (requests_get_content url s) = log_request url s.
Proof.
  unfold requests_get_content.
  destruct (internet s url (length (requests_log s))) as [st c|e]; [|done].
  by destruct (_ && _).
Qed.

(** One iteration of the retry loop, by cases on the attempt. *)
Lemma retry_loop_step {A} (f : system → result A * system) m b n k w :
  retry_loop (lift_sys f) m b (S n) k w
  = match f (sys w) with
    | (Return v, s') => (Return (Some v), set_sys s' w)
    | (Raise e, s') =>
        if transient e && (k <? m - 1)%Z then
          let msg := retry_message (retry_what e) (b ^ k) k m in
          if (b ^ k <? 0)%Z
          then (Raise ValueError, printed [msg] (set_sys s' w))
          else retry_loop (lift_sys f) m b n (k + 1)
                 (after_backoff s' msg (b ^ k) w)
        else (Raise e, set_sys s' w)
    end.
Proof.
  simpl. unfold try_except at 1, bind at 1, lift_sys at 1.
  destruct (f (sys w)) as [[v|e] s']; [done|].
  unfold transient, retry_what.
  destruct (isinstance_Timeout e) eqn:Ht; simpl.
  - destruct (k <? m - 1)%Z; [|done].
    unfold bind at 1, print. unfold bind at 1, time_sleep. simpl.
    by destruct (b ^ k <? 0)%Z.
  - destruct (isinstance_ConnectionError e); simpl; [|done].
    destruct (k <? m - 1)%Z; [|done].
    unfold bind at 1, print. unfold bind at 1, time_sleep. simpl.
    by destruct (b ^ k <? 0)%Z.
Qed.

(** The retry loop over [_fetch] only appends requests for [url] to the
    log, at least one when it runs at all, and leaves the cache alone. *)
Lemma retry_loop_fetch_frame url m b n k w r w' :
  retry_loop (_fetch url) m b n k w = (r, w') →
  cache_part (sys w') = cache_part (sys w)
  ∧ ∃ more, requests_log (sys w') = requests_log (sys w) ++ more
            ∧ (n ≠ 0 → ∃ more', more = url :: more').
Proof.
  revert k w. induction n as [|n IH]; intros k w.
  - intros [= <- <-]. split; [done|]. exists []. by rewrite app_nil_r.
  - unfold _fetch. rewrite retry_loop_step.
    pose proof (requests_get_content_state url (sys w)) as Hs.
    destruct (requests_get_content url (sys w)) as [[v|e] s']; simpl in Hs;
      subst s'.
    + intros [= <- <-]. split; [done|]. exists [url]. eauto.
    + destruct (transient e && (k <? m - 1)%Z).
      * cbv zeta. destruct (b ^ k <? 0)%Z.
        -- intros [= <- <-]. split; [done|]. exists [url]. eauto.
        -- intros (Hc & more & Hlog & _)%IH. split; [done|].
           simpl in Hlog. exists (url :: more).
           rewrite Hlog, <- app_assoc. eauto.
      * intros [= <- <-]. split; [done|]. exists [url]. eauto.
Qed.

Lemma get_youtube_source_code_frame url w r w' :
  get_youtube_source_code url w = (r, w') →
  cache_part (sys w') = cache_part (sys w)
  ∧ ∃ more, requests_log (sys w') = requests_log (sys w) ++ url :: more.
Proof.
  unfold get_youtube_source_code, try_except, retry_request.
  destruct (retry_loop (_fetch url) 3 2 (Z.to_nat 3) 0 w) as [r1 w1] eqn:Hr.
  apply retry_loop_fetch_frame in Hr as (Hc & more & Hlog & Hne).
  destruct Hne as [more' ->]; [done|].
  assert (Hgoal : sys w' = sys w1 →
            cache_part (sys w') = cache_part (sys w)
            ∧ ∃ more, requests_log (sys w') = requests_log (sys w) ++ url :: more).
  { intros ->. eauto. }
  destruct r1 as [v|e]; [intros [= <- <-]; by apply Hgoal|].
  destruct e; simpl; try (intros [= <- <-]; by apply Hgoal).
  destruct (_ =? 404)%Z; intros [= <- <-]; by apply Hgoal.
Qed.

(** ** The main block *)


Lemma cache_channel_id_requests_log url c w r w' :
  cache_channel_id url c w = (r, w') →
  requests_log (sys w') = requests_log (sys w).
Proof.
  unfold cache_channel_id. unfold bind at 1. rewrite load_cache_eq.
  unfold save_cache, get_cache_file_path.
  destruct (cache_file (sys w)) as [| | | | | |j] eqn:Hf; simpl;
    unfold bind, datetime_now_isoformat, print, raise; simpl;
    try destruct j; simpl; rewrite ?Hf;
    try destruct (cache_write_error (sys w)) as [[]|]; simpl;
    by intros [= <- <-].
Qed.

Lemma resolve_from_page_requests `{Library} url use_cache w r w' :
  resolve_from_page url use_cache w = (r, w') →
  ∃ more, requests_log (sys w') = requests_log (sys w) ++ url :: more.
Proof.
  unfold resolve_from_page. unfold bind at 1.
  destruct (get_youtube_source_code url w) as [[src|e] w1] eqn:Hsrc;
    apply get_youtube_source_code_frame in Hsrc as (_ & more & Hlog).
  - destruct src as [[|byte src]|];
      try (unfold bind, print, raise; intros [= <- <-]; by exists more).
    unfold bind at 1, lift_result.
    destruct (get_youtube_channel_id (Some (byte :: src))) as [[c|]|e].
    + unfold when. destruct (_ && _).
      * unfold bind.
        destruct (cache_channel_id url c w1) as [[[]|e] w2] eqn:Hstore;
          apply cache_channel_id_requests_log in Hstore;
          intros [= <- <-]; exists more; by rewrite Hstore.
      * intros [= <- <-]. by exists more.
    + intros [= <- <-]. by exists more.
    + intros [= <- <-]. by exists more.
  - intros [= <- <-]. by exists more.
Qed.


(** C9: a record that is present but falsy, the empty string among them,
    makes the lookup report a miss; the main block then takes the branch
    that fetches the page of the reference. *)
Theorem falsy_record_is_a_miss `{Library} (url : string)
    (d : gmap string json) (v : json) (quiet : bool) (w : world) :
  cache_file (sys w) = Parsed (JDict d) →
  d !! url = Some v →
  truthy v = false →
  get_cached_channel_id url true w = (Return JNull, w)
  ∧ resolve_channel_id url false quiet w = resolve_from_page url true w
  ∧ ∃ more,
      requests_log (sys (snd (resolve_channel_id url false quiet w)))
      = requests_log (sys w) ++ url :: more.
Proof.
  intros Hfile Hv Hfalsy.
  assert (Hd : cache_dict (sys w) = Some d) by (unfold cache_dict; by rewrite Hfile).
  assert (Hlookup : get_cached_channel_id url true w = (Return JNull, w)).
  { rewrite (get_cached_channel_id_dict url w d Hd), Hv. cbn [from_option id].
    by rewrite normalize_falsy. }
  assert (Hmiss : resolve_channel_id url false quiet w
                  = resolve_from_page url true w).
  { unfold resolve_channel_id. simpl negb. unfold bind at 1.
    by rewrite Hlookup. }
  split_and!; [done..|]. rewrite Hmiss.
  destruct (resolve_from_page url true w) as [r w'] eqn:Hr.
  by apply resolve_from_page_requests in Hr.
Qed.

Lemma falsy_record_is_a_miss_witness :
  let w :=
    Examples.world_of
      (Examples.system_with_cache (JDict Examples.empty_id_cache)) in
  get_cached_channel_id "https://x/@foo" true w = (Return JNull, w).
Proof.
  intros w.
  apply (falsy_record_is_a_miss (H := Sample.library [] [])
           "https://x/@foo" Examples.empty_id_cache (JStr "") false w).
  - reflexivity.
  - vm_compute. reflexivity.
  - reflexivity.
Defined.




(** ** Entry filter *)

(** [<] on dates is the negation of the converse [<=]. *)
Lemma date_ltb_leb a d : date_ltb d a = negb (date_leb a d).
Proof.
  unfold date_leb, date_ltb, date_eqb.
  destruct (Z.ltb_spec (year d) (year a)), (Z.ltb_spec (year a) (year d)),
    (Z.eqb_spec (year d) (year a)), (Z.eqb_spec (year a) (year d)),
    (Z.ltb_spec (month d) (month a)), (Z.ltb_spec (month a) (month d)),
    (Z.eqb_spec (month d) (month a)), (Z.eqb_spec (month a) (month d)),
    (Z.ltb_spec (day d) (day a)), (Z.ltb_spec (day a) (day d)),
    (Z.eqb_spec (day a) (day d)); simpl; try reflexivity; lia.
Qed.

Section Filter.
Context `{Library}.
Implicit Types (e : Entry) (entries : list Entry).
Implicit Types (filter_by filter_value : option string).
Implicit Types (a b : option date).

Lemma read_entry_well_formed e :
  well_formed_entry e →
  ∃ t p l dt,
    entry_title e = Some t ∧ entry_published e = Some p
    ∧ strptime_iso p = Some dt
    ∧ read_entry e = Return (t, p, l, dt)
    ∧ video_of e = {| title := t; published := p; link := l |}.
Proof.
  intros ([t Ht] & [d Hd] & [l Hl]). unfold published_date in Hd.
  destruct (entry_published e) as [p|] eqn:Hp; [|done]. simpl in Hd.
  destruct (strptime_iso p) as [dt|] eqn:Hdt; [|done].
  exists t, p, l, dt. unfold read_entry, video_of.
  rewrite Ht, Hp, Hl. simpl. by rewrite Hdt.
Qed.

Lemma passes_spec filter_by filter_value a b t dt :
  well_formed_criteria filter_by filter_value →
  passes filter_by filter_value a b t dt
  = Return (after_ok a (dt_date dt) && before_ok b (dt_date dt)
            && exact_date_ok filter_by filter_value (dt_date dt)
            && title_ok filter_by filter_value t).
Proof.
  intros [Hdate Htitle]. unfold passes, after_ok, before_ok.
  destruct a as [a0|];
    [rewrite date_ltb_leb; destruct (date_leb a0 _)|]; simpl; try done.
  all: destruct b as [b0|];
    [rewrite date_ltb_leb; destruct (date_leb _ b0)|]; simpl; try done.
  all: unfold exact_date_ok, title_ok.
  all: case_bool_decide as Hd;
    [ destruct (Hdate Hd) as [fd Hfd]; subst filter_by;
      destruct filter_value as [v|]; [|done]; simpl in Hfd; rewrite Hfd;
      simpl; rewrite Hfd; simpl;
      destruct (date_eqb _ _); simpl; [|done];
      rewrite ?bool_decide_eq_false_2 by done; done
    | simpl; case_bool_decide as Ht; [|done];
      by destruct (Htitle Ht) as [v ->] ].
Qed.

Lemma retained_read e t p dt filter_by filter_value a b :
  entry_title e = Some t → entry_published e = Some p →
  strptime_iso p = Some dt →
  retained filter_by filter_value a b e
  = after_ok a (dt_date dt) && before_ok b (dt_date dt)
    && exact_date_ok filter_by filter_value (dt_date dt)
    && title_ok filter_by filter_value t.
Proof.
  intros Ht Hp Hdt. unfold retained, published_date.
  rewrite Ht, Hp. simpl. by rewrite Hdt.
Qed.

(** The loop appends the retained entries, in order. *)
Lemma filter_loop_spec entries filter_by filter_value a b acc :
  Forall well_formed_entry entries →
  well_formed_criteria filter_by filter_value →
  filter_loop entries filter_by filter_value a b acc
  = Return (acc ++ (video_of <$>
              filter (λ e, retained filter_by filter_value a b e) entries)).
Proof.
  intros Hwf Hcrit. revert acc.
  induction Hwf as [|e entries He _ IH]; intros acc.
  - simpl. by rewrite app_nil_r.
  - destruct (read_entry_well_formed e He)
      as (t & p & l & dt & Ht & Hp & Hdt & Hread & Hvideo).
    simpl. rewrite Hread. simpl. rewrite (passes_spec _ _ _ _ _ _ Hcrit).
    simpl. rewrite <- (retained_read e t p dt) by done.
    rewrite filter_cons.
    destruct (retained filter_by filter_value a b e) eqn:Hkeep.
    + simpl. rewrite IH, Hvideo. by rewrite <- app_assoc.
    + simpl. apply IH.
Qed.

Lemma retained_video_of e e' filter_by filter_value a b :
  well_formed_entry e → well_formed_entry e' →
  video_of e = video_of e' →
  retained filter_by filter_value a b e
  = retained filter_by filter_value a b e'.
Proof.
  intros (t & p & l & dt & Ht & Hp & Hdt & _ & Hv)%read_entry_well_formed
         (t' & p' & l' & dt' & Ht' & Hp' & Hdt' & _ & Hv')%read_entry_well_formed
         Heq.
  rewrite Hv, Hv' in Heq. injection Heq as -> -> ->.
  rewrite Hdt in Hdt'. injection Hdt' as ->.
  by rewrite (retained_read e t' p' dt'), (retained_read e' t' p' dt').
Qed.

Lemma retained_both_bounds e filter_by filter_value a b :
  retained filter_by filter_value a b e
  = retained filter_by filter_value a None e
    && retained filter_by filter_value None b e.
Proof.
  unfold retained. destruct (entry_title e) as [t|]; [|done].
  destruct (published_date e) as [d|]; [|done]. simpl.
  destruct (after_ok a d), (before_ok b d),
    (exact_date_ok filter_by filter_value d),
    (title_ok filter_by filter_value t); done.
Qed.

(** A video is in the result exactly when its entry is retained. *)
Lemma video_of_kept entries e filter_by filter_value a b :
  Forall well_formed_entry entries → e ∈ entries →
  video_of e
    ∈ video_of <$> filter (λ e, retained filter_by filter_value a b e) entries
  ↔ retained filter_by filter_value a b e.
Proof.
  intros Hwf He. rewrite Forall_forall in Hwf. split.
  - intros (e' & Heq & [Hkeep He']%list_elem_of_filter)%list_elem_of_fmap.
    by rewrite (retained_video_of e e') by auto.
  - intros Hkeep. apply list_elem_of_fmap_2, list_elem_of_filter. done.
Qed.

(** Both bounds together keep what the two single bounds both keep. *)
Lemma kept_intersection entries filter_by filter_value a b :
  Forall well_formed_entry entries →
  video_of <$> filter (λ e, retained filter_by filter_value a b e) entries
  = filter
      (λ v, v ∈ video_of <$>
              filter (λ e, retained filter_by filter_value None b e) entries)
      (video_of <$>
         filter (λ e, retained filter_by filter_value a None e) entries).
Proof.
  intros Hwf.
  set (B := video_of <$>
              filter (λ e, retained filter_by filter_value None b e) entries).
  assert (Hsub : ∀ l, Forall (λ e, e ∈ entries) l →
    video_of <$> filter (λ e, retained filter_by filter_value a b e) l
    = filter (λ v, v ∈ B)
        (video_of <$>
           filter (λ e, retained filter_by filter_value a None e) l)).
  { induction 1 as [|e l He _ IH]; [done|].
    rewrite !filter_cons, (retained_both_bounds e _ _ a b).
    pose proof (video_of_kept entries e filter_by filter_value None b
                  Hwf He) as Hin. fold B in Hin.
    destruct (retained filter_by filter_value a None e); simpl; [|done].
    rewrite filter_cons.
    destruct (retained filter_by filter_value None b e); simpl.
    - rewrite decide_True by (by apply Hin). f_equal. apply IH.
    - rewrite decide_False by (by intros []%Hin). apply IH. }
  apply Hsub, Forall_forall. auto.
Qed.

End Filter.

Lemma date_leb_refl d : date_leb d d = true.
Proof.
  unfold date_leb, date_eqb. rewrite !Z.eqb_refl. apply orb_true_r.
Qed.

(** C5: on well-formed entries and criteria, [filter_videos] returns, in
    order, the entries that satisfy the conjunction of the active
    predicates; the date bounds are inclusive; an entry outside a bound is
    not in the result; and the result for both bounds is the result for the
    after bound restricted to the result for the before bound. *)
Theorem filter_videos_conjunction `{Library} (entries : list Entry)
    (filter_by filter_value after_date before_date : option string)
    (after_dt before_dt : option date) :
  Forall well_formed_entry entries →
  well_formed_criteria filter_by filter_value →
  parse_bound after_date = Return after_dt →
  parse_bound before_date = Return before_dt →
  let kept a b :=
    video_of <$> filter (λ e, retained filter_by filter_value a b e) entries
  in
  filter_videos entries filter_by filter_value after_date before_date
  = Return (kept after_dt before_dt)
  ∧ (∀ d, after_ok (Some d) d = true ∧ before_ok (Some d) d = true)
  ∧ (∀ e d,
      e ∈ entries → published_date e = Some d →
      (retained filter_by filter_value after_dt before_dt e →
       video_of e ∈ kept after_dt before_dt)
      ∧ (after_ok after_dt d = false ∨ before_ok before_dt d = false →
         video_of e ∉ kept after_dt before_dt))
  ∧ filter_videos entries filter_by filter_value after_date None
    = Return (kept after_dt None)
  ∧ filter_videos entries filter_by filter_value None before_date
    = Return (kept None before_dt)
  ∧ kept after_dt before_dt
    = filter (λ v, v ∈ kept None before_dt) (kept after_dt None).
Proof.
  intros Hwf Hcrit Hafter Hbefore kept.
  assert (Hrun : ∀ ad bd a b,
            parse_bound ad = Return a → parse_bound bd = Return b →
            filter_videos entries filter_by filter_value ad bd
            = Return (kept a b)).
  { intros ad bd a b Ha Hb. unfold filter_videos. rewrite Ha, Hb. simpl.
    by rewrite filter_loop_spec. }
  split_and!.
  - by apply Hrun.
  - intros d. simpl. by rewrite date_leb_refl.
  - intros e d He Hd. split.
    + intros Hkeep. by apply video_of_kept.
    + intros Hout Hin. apply video_of_kept in Hin; [|done..].
      unfold retained in Hin. rewrite Hd in Hin.
      destruct (entry_title e); [|done].
      destruct Hout as [Hout | Hout]; rewrite Hout in Hin;
        [done | by destruct (after_ok after_dt d)].
  - by apply Hrun.
  - by apply Hrun.
  - by apply kept_intersection.
Qed.

Lemma filter_videos_conjunction_witness :
  let lib := Sample.library [] [] in
  filter_videos (H := lib) Examples.feed None None
    (Some "2023-01-01") (Some "2023-06-30")
  = Return
      (video_of <$>
         filter (λ e, retained (H := lib) None None
                        (Some (Date 2023 1 1)) (Some (Date 2023 6 30)) e)
                Examples.feed).
Proof.
  intros lib.
  apply (filter_videos_conjunction (H := lib) Examples.feed None None
           (Some "2023-01-01") (Some "2023-06-30")
           (Some (Date 2023 1 1)) (Some (Date 2023 6 30))).
  - repeat constructor; vm_compute; eauto.
  - split; discriminate.
  - reflexivity.
  - reflexivity.
Defined.

Section FilterErrors.
Context `{Library}.
Implicit Types (e : Entry) (entries : list Entry).
Implicit Types (filter_by filter_value : option string).
Implicit Types (a b : option date).

(** An entry at which the loop body raises makes the loop raise,
    wherever the entry stands in the list. *)
Lemma filter_loop_raises entries filter_by filter_value a b acc e :
  e ∈ entries →
  (is_raise (read_entry e) = true
   ∨ ∃ t p l dt,
       read_entry e = Return (t, p, l, dt)
       ∧ is_raise (passes filter_by filter_value a b t dt) = true) →
  is_raise (filter_loop entries filter_by filter_value a b acc) = true.
Proof.
  intros He Hbad. revert acc.
  induction entries as [|e0 entries IH]; intros acc.
  - by apply elem_of_nil in He.
  - simpl. apply elem_of_cons in He as [<- | He].
    + destruct Hbad as [Hread | (t & p & l & dt & -> & Hpass)].
      * by destruct (read_entry e).
      * simpl. by destruct (passes filter_by filter_value a b t dt).
    + destruct (read_entry e0) as [[[[t p] l] dt]|]; [|done]. simpl.
      destruct (passes filter_by filter_value a b t dt) as [[]|]; simpl;
        auto.
Qed.

Lemma read_entry_unparseable e p :
  entry_published e = Some p → strptime_iso p = None →
  is_raise (read_entry e) = true.
Proof.
  intros Hp Hdt. unfold read_entry. rewrite Hp.
  destruct (entry_title e); [|done]. simpl.
  destruct (entry_link e) as [[l|]|]; [|done..]. simpl. by rewrite Hdt.
Qed.

Lemma read_entry_unparseable_ValueError e t p l :
  entry_title e = Some t → entry_published e = Some p →
  entry_link e = Some (Some l) → strptime_iso p = None →
  read_entry e = Raise ValueError.
Proof.
  intros Ht Hp Hl Hdt. unfold read_entry. rewrite Ht, Hp, Hl. simpl.
  by rewrite Hdt.
Qed.

Lemma read_entry_published_date e t p l dt :
  read_entry e = Return (t, p, l, dt) → published_date e = Some (dt_date dt).
Proof.
  unfold read_entry, published_date.
  destruct (entry_title e); [|done]. simpl.
  destruct (entry_published e) as [p'|]; [|done]. simpl.
  destruct (entry_link e) as [[l'|]|]; [|done..]. simpl.
  destruct (strptime_iso p'); [|done]. simpl. by intros [= _ _ _ ->].
Qed.

(** Within the date range, an exact-date value that does not parse makes
    the tests of the entry raise. *)
Lemma passes_legacy_raises filter_value a b t dt :
  filter_value ≫= strptime_ymd = None →
  after_ok a (dt_date dt) = true → before_ok b (dt_date dt) = true →
  is_raise (passes (Some "date") filter_value a b t dt) = true.
Proof.
  intros Hbad Ha Hb. unfold passes, after_ok, before_ok in *.
  destruct a as [a0|];
    [rewrite date_ltb_leb, Ha|]; simpl.
  all: destruct b as [b0|];
    [rewrite date_ltb_leb, Hb|]; simpl.
  all: destruct filter_value as [v|]; [|done]; simpl in Hbad;
    by rewrite Hbad.
Qed.

(** The loop over a well-formed prefix goes on with the rest. *)
Lemma filter_loop_app pre rest filter_by filter_value a b acc :
  Forall well_formed_entry pre →
  well_formed_criteria filter_by filter_value →
  filter_loop (pre ++ rest) filter_by filter_value a b acc
  = filter_loop rest filter_by filter_value a b
      (acc ++ (video_of <$>
                 filter (λ e, retained filter_by filter_value a b e) pre)).
Proof.
  intros Hwf Hcrit. revert acc.
  induction Hwf as [|e pre He _ IH]; intros acc.
  - simpl. by rewrite app_nil_r.
  - destruct (read_entry_well_formed e He)
      as (t & p & l & dt & Ht & Hp & Hdt & Hread & Hvideo).
    simpl. rewrite Hread. simpl. rewrite (passes_spec _ _ _ _ _ _ Hcrit).
    simpl. rewrite <- (retained_read e t p dt) by done.
    rewrite filter_cons.
    destruct (retained filter_by filter_value a b e); simpl.
    + rewrite IH, Hvideo. by rewrite <- app_assoc.
    + apply IH.
Qed.

End FilterErrors.

Lemma is_raise_rbind {A B} (r : result A) (k : A → result B) :
  (∀ x, r = Return x → is_raise (k x) = true) → is_raise (rbind r k) = true.
Proof. destruct r; simpl; auto. Qed.

Lemma parse_bound_unparseable `{Library} s :
  s ≠ "" → strptime_ymd s = None → parse_bound (Some s) = Raise ValueError.
Proof.
  intros Hs Hbad. unfold parse_bound.
  destruct (String.eqb_spec s ""); [done|]. by rewrite Hbad.
Qed.

Lemma parse_bound_cases `{Library} d :
  parse_bound d = Raise ValueError ∨ ∃ dt, parse_bound d = Return dt.
Proof.
  unfold parse_bound. destruct d as [s|]; [|eauto].
  destruct (String.eqb s ""); [eauto|]. destruct (strptime_ymd s); eauto.
Qed.

(** C7 as stated fails: the empty string is not a date, and given as the
    after and the before date it raises nothing and bounds nothing; every
    entry of the feed is returned, as with no bounds at all. *)
Lemma empty_date_bound_is_dropped :
  let lib := Sample.library [] [] in
  @strptime_ymd lib "" = None
  ∧ is_raise (filter_videos (H := lib) Examples.feed None None
                (Some "") (Some "")) = false
  ∧ filter_videos (H := lib) Examples.feed None None (Some "") (Some "")
    = Return (video_of <$> Examples.feed)
  ∧ filter_videos (H := lib) Examples.feed None None (Some "") (Some "")
    = filter_videos (H := lib) Examples.feed None None None None.
Proof. by vm_compute. Qed.

(** C7, amended: an after or before date that is not empty and does not
    parse makes [filter_videos] raise [ValueError] before any entry is
    read; an entry whose [published] text does not parse makes it raise,
    and the error is [ValueError] when the entries before it and the
    criteria are well-formed; an exact-date value that does not parse, the
    empty one among them, makes it raise as soon as an entry within the
    date range is in the list.  An empty after or before date is taken as
    not given. *)
Theorem malformed_dates_raise `{Library} (entries : list Entry)
    (filter_by filter_value after_date before_date : option string) :
  (∀ s, after_date = Some s → s ≠ "" → strptime_ymd s = None →
        filter_videos entries filter_by filter_value after_date before_date
        = Raise ValueError)
  ∧ (∀ s, before_date = Some s → s ≠ "" → strptime_ymd s = None →
          filter_videos entries filter_by filter_value after_date before_date
          = Raise ValueError)
  ∧ (∀ e p, e ∈ entries → entry_published e = Some p →
            strptime_iso p = None →
            is_raise (filter_videos entries filter_by filter_value
                        after_date before_date) = true)
  ∧ (∀ pre e post t p l a b,
        entries = pre ++ e :: post →
        Forall well_formed_entry pre →
        well_formed_criteria filter_by filter_value →
        parse_bound after_date = Return a →
        parse_bound before_date = Return b →
        entry_title e = Some t → entry_published e = Some p →
        entry_link e = Some (Some l) → strptime_iso p = None →
        filter_videos entries filter_by filter_value after_date before_date
        = Raise ValueError)
  ∧ (∀ e d a b,
        filter_by = Some "date" →
        filter_value ≫= strptime_ymd = None →
        parse_bound after_date = Return a →
        parse_bound before_date = Return b →
        e ∈ entries → published_date e = Some d →
        after_ok a d = true → before_ok b d = true →
        is_raise (filter_videos entries filter_by filter_value
                    after_date before_date) = true)
  ∧ filter_videos entries filter_by filter_value (Some "") before_date
    = filter_videos entries filter_by filter_value None before_date
  ∧ filter_videos entries filter_by filter_value after_date (Some "")
    = filter_videos entries filter_by filter_value after_date None.
Proof.
  split_and!; [| | | | |done..].
  - intros s -> Hs Hbad. unfold filter_videos.
    by rewrite (parse_bound_unparseable s).
  - intros s -> Hs Hbad. unfold filter_videos.
    rewrite (parse_bound_unparseable s) by done.
    by destruct (parse_bound_cases after_date) as [-> | [dt ->]].
  - intros e p He Hp Hbad. unfold filter_videos.
    apply is_raise_rbind; intros a _. apply is_raise_rbind; intros b _.
    apply (filter_loop_raises _ _ _ _ _ _ e He). left.
    by apply (read_entry_unparseable e p).
  - intros pre e post t p l a b -> Hpre Hcrit Ha Hb Ht Hp Hl Hbad.
    unfold filter_videos. rewrite Ha, Hb. simpl.
    rewrite filter_loop_app by done. simpl.
    by rewrite (read_entry_unparseable_ValueError e t p l).
  - intros e d a b -> Hbad Ha Hb He Hd Hafter Hbefore.
    unfold filter_videos. rewrite Ha, Hb. simpl.
    apply (filter_loop_raises _ _ _ _ _ _ e He).
    destruct (read_entry e) as [[[[t p] l] dt]|] eqn:Hread; [right|by left].
    exists t, p, l, dt. split; [done|].
    apply read_entry_published_date in Hread. rewrite Hd in Hread.
    injection Hread as ->. by apply passes_legacy_raises.
Qed.

Lemma malformed_dates_raise_witness :
  let lib := Sample.library [] [] in
  is_raise (filter_videos (H := lib) Examples.broken_feed None None None None)
  = true
  ∧ filter_videos (H := lib) Examples.feed None None (Some "soon") None
    = Raise ValueError.
Proof.
  intros lib. split.
  - destruct (malformed_dates_raise (H := lib) Examples.broken_feed
                None None None None) as (_ & _ & Hentry & _).
    apply (Hentry (Examples.entry "Beta" "yesterday") "yesterday").
    + apply list_elem_of_In. simpl. auto.
    + reflexivity.
    + reflexivity.
  - destruct (malformed_dates_raise (H := lib) Examples.feed
                None None (Some "soon") None) as (Hafter & _).
    apply (Hafter "soon").
    + reflexivity.
    + discriminate.
    + reflexivity.
Defined.

(** * Further properties *)

(** ** What the patterns find *)

Lemma string_app_cons (x : ascii) (a b : string) :
  String x a +:+ b = String x (a +:+ b).
Proof. reflexivity. Qed.

Lemma string_app_assoc (a b c : string) : (a +:+ b) +:+ c = a +:+ (b +:+ c).
Proof.
  induction a as [|x a IH]; [done|]. by rewrite !string_app_cons, IH.
Qed.

Lemma string_app_nil_r (a : string) : a +:+ "" = a.
Proof. induction a as [|x a IH]; [done|]. by rewrite string_app_cons, IH. Qed.

Lemma matches_lits {R} pre rest (k : string → option R) :
  re.matches (re.lits pre) (pre +:+ rest) k = k rest.
Proof.
  induction pre as [|c pre IH]; simpl; [done|].
  by rewrite Ascii.eqb_refl.
Qed.

Lemma matches_lits_inv {R} pre s (k : string → option R) r :
  re.matches (re.lits pre) s k = Some r →
  ∃ rest, s = pre +:+ rest ∧ k rest = Some r.
Proof.
  revert s. induction pre as [|c pre IH]; intros s; simpl.
  - intros Hk. by exists s.
  - destruct s as [|c' s]; [done|].
    destruct (Ascii.eqb_spec c c') as [<-|]; [|done].
    intros (rest & -> & Hk)%IH. by exists rest.
Qed.

(** Where a match attempt succeeds, the text starts with the literal
    before the group, the captured text and the literal after it. *)
Lemma match_at_sound pre post s g :
  re.match_at
    (re.Pattern (re.lits pre) [re.Set_ re.set_UC; re.Plus re.set_word]
                (re.lits post)) s
  = Some g →
  ∃ tail, s = pre +:+ g +:+ post +:+ tail.
Proof.
  unfold re.match_at. simpl re.before. simpl re.group. simpl re.after.
  intros (s1 & -> & Hgroup)%matches_lits_inv.
  destruct s1 as [|c s1]; [done|].
  change (re.matches [re.Set_ re.set_UC; re.Plus re.set_word] (String c s1) ?k)
    with (if re.set_UC c then re.matches [re.Plus re.set_word] s1 k else None)
    in Hgroup.
  destruct (re.set_UC c); [|done].
  apply matches_plus_inv in Hgroup as (run & rest & -> & _ & _ & Hk).
  simpl in Hk. apply matches_lits_inv in Hk as (tail & -> & [= <-]).
  exists tail. unfold re.captured.
  change (String c (run +:+ post +:+ tail))
    with (String c run +:+ (post +:+ tail)).
  by rewrite take_app_length.
Qed.

Lemma search_sound p s g :
  re.search p s = Some g →
  ∃ skipped s', s = skipped +:+ s' ∧ re.match_at p s' = Some g.
Proof.
  induction s as [|c s IH]; simpl.
  - destruct (re.match_at p "") eqn:Hm; [|done]. intros [= ->].
    by exists "", "".
  - destruct (re.match_at p (String c s)) eqn:Hm.
    + intros [= ->]. by exists "", (String c s).
    + intros (skipped & s' & -> & Hs')%IH. by exists (String c skipped), s'.
Qed.

(** What [re.search] returns for one of the patterns of the script stands
    in the text, between the literals of the pattern. *)
Lemma search_occurs pre post s g :
  re.search
    (re.Pattern (re.lits pre) [re.Set_ re.set_UC; re.Plus re.set_word]
                (re.lits post)) s
  = Some g →
  occurs (pre +:+ g +:+ post) s.
Proof.
  intros (skipped & s' & -> & (tail & ->)%match_at_sound)%search_sound.
  exists skipped, tail. by rewrite !string_app_assoc.
Qed.

(** A greedy [+] succeeds on a run of the class whenever what follows the
    run can be matched after it. *)
Lemma matches_plus_complete {R} cls items run rest (k : string → option R) :
  run ≠ "" → all_chars cls run = true →
  is_Some (re.matches items rest k) →
  is_Some (re.matches (re.Plus cls :: items) (run +:+ rest) k).
Proof.
  intros Hne Hall Hrest. induction run as [|c run IH]; [done|].
  simpl in Hall. apply andb_true_iff in Hall as [Hc Hall].
  change (String c run +:+ rest) with (String c (run +:+ rest)).
  rewrite matches_plus_unfold, Hc.
  destruct (re.matches (re.Plus cls :: items) (run +:+ rest) k) eqn:Hmore;
    [done|].
  destruct run as [|c' run]; [done|].
  by destruct IH as [? ?].
Qed.

Lemma match_at_complete pre post c run tail :
  re.set_UC c = true → run ≠ "" → all_chars re.set_word run = true →
  is_Some
    (re.match_at
       (re.Pattern (re.lits pre) [re.Set_ re.set_UC; re.Plus re.set_word]
                   (re.lits post))
       (pre +:+ String c run +:+ post +:+ tail)).
Proof.
  intros Hc Hne Hall. unfold re.match_at.
  simpl re.before. simpl re.group. simpl re.after.
  rewrite matches_lits.
  change (String c run +:+ post +:+ tail)
    with (String c (run +:+ (post +:+ tail))).
  change (re.matches [re.Set_ re.set_UC; re.Plus re.set_word]
            (String c (run +:+ (post +:+ tail))) ?k)
    with (if re.set_UC c
          then re.matches [re.Plus re.set_word] (run +:+ (post +:+ tail)) k
          else None).
  rewrite Hc. apply matches_plus_complete; [done..|].
  simpl. by rewrite matches_lits.
Qed.

Lemma search_complete p skipped s :
  is_Some (re.match_at p s) → is_Some (re.search p (skipped +:+ s)).
Proof.
  intros Hs. induction skipped as [|c skipped IH]; simpl.
  - destruct s; simpl; by destruct (re.match_at p _).
  - by destruct (re.match_at p (String c (skipped +:+ s))).
Qed.

(** [re.search] finds something whenever the text holds the literals of
    the pattern around a text of the captured shape. *)
Lemma search_finds pre post s g :
  captured_shape g = true → occurs (pre +:+ g +:+ post) s →
  is_Some
    (re.search
       (re.Pattern (re.lits pre) [re.Set_ re.set_UC; re.Plus re.set_word]
                   (re.lits post)) s).
Proof.
  intros Hshape (skipped & tail & ->). destruct g as [|c run]; [done|].
  simpl in Hshape.
  apply andb_true_iff in Hshape as [[Hc Hne]%andb_true_iff Hall].
  apply search_complete. rewrite !string_app_assoc.
  apply match_at_complete; [done| |done].
  intros ->. done.
Qed.

Lemma json_field_pattern key g :
  (quoted key +:+ ":" +:+ String dquote "") +:+ g +:+ String dquote ""
  = json_field key g.
Proof.
  unfold json_field, quoted. rewrite !string_app_cons.
  by rewrite !string_app_assoc.
Qed.

Lemma script_of_find_all soup script :
  script ∈ soup_find_all "script" soup ↔ is_script_of soup script.
Proof.
  unfold soup_find_all, is_script_of.
  rewrite !list_elem_of_In, filter_In, String.eqb_eq. done.
Qed.

Lemma script_id_occurs script g :
  script_id script = Some g →
  occurs (json_field "channel_id" g) (markup script)
  ∨ occurs (json_field "channelId" g) (markup script).
Proof.
  unfold script_id.
  destruct (re.search re_channel_id (markup script)) as [g'|] eqn:H1.
  - intros [= ->]. left. rewrite <- json_field_pattern.
    by apply (search_occurs _ (String dquote "")).
  - intros H2. right. rewrite <- json_field_pattern.
    by apply (search_occurs _ (String dquote "")).
Qed.

Lemma script_id_finds script g :
  captured_shape g = true →
  occurs (json_field "channel_id" g) (markup script)
  ∨ occurs (json_field "channelId" g) (markup script) →
  is_Some (script_id script).
Proof.
  intros Hshape Hocc. unfold script_id.
  destruct (re.search re_channel_id (markup script)) eqn:H1; [done|].
  destruct Hocc as [Hocc | Hocc]; rewrite <- json_field_pattern in Hocc.
  - apply (search_finds _ (String dquote "")) in Hocc; [|done].
    change (is_Some (re.search re_channel_id (markup script))) in Hocc.
    rewrite H1 in Hocc. by destruct Hocc.
  - by apply (search_finds _ (String dquote "")) in Hocc.
Qed.

Lemma extract_channel_id_occurs (soup : list Tag) (g : string) :
  extract_channel_id soup = Return (Some g) →
  (∃ url, og_url soup = Some url ∧ occurs ("/channel/" +:+ g) url)
  ∨ (∃ script,
        is_script_of soup script
        ∧ (occurs (json_field "channel_id" g) (markup script)
           ∨ occurs (json_field "channelId" g) (markup script))).
Proof.
  assert (Hscan : scan_scripts (soup_find_all "script" soup) = Some g →
            ∃ script,
              is_script_of soup script
              ∧ (occurs (json_field "channel_id" g) (markup script)
                 ∨ occurs (json_field "channelId" g) (markup script))).
  { intros (pre & s & post & Heq & _ & Hs)%scan_scripts_Some.
    exists s. split; [|by apply script_id_occurs].
    apply script_of_find_all. rewrite Heq. set_solver. }
  unfold extract_channel_id, og_url.
  destruct (soup_find "meta" "property" "og:url" soup) as [t|]; simpl.
  - destruct (attrs t !! "content") as [url|]; [|done].
    destruct (re.search re_og_channel url) as [g'|] eqn:Hch.
    + intros [= ->]. left. exists url. split; [done|].
      apply (search_occurs "/channel/" "") in Hch.
      by rewrite string_app_nil_r in Hch.
    + destruct (re.search re_og_handle url); intros [= ?]; right; auto.
  - intros [= ?]. right. auto.
Qed.

(** X1: an identifier the extraction returns is one of the letters [U] and
    [C] followed by one or more URL-safe characters, and it stands in the
    page: after [/channel/] in the canonical URL, or as the value of a
    [channel_id] or [channelId] field in the text of a script tag. *)
Theorem extract_channel_id_sound (soup : list Tag) (g : string) :
  extract_channel_id soup = Return (Some g) →
  captured_shape g = true
  ∧ ((∃ url, og_url soup = Some url ∧ occurs ("/channel/" +:+ g) url)
     ∨ (∃ script,
           is_script_of soup script
           ∧ (occurs (json_field "channel_id" g) (markup script)
              ∨ occurs (json_field "channelId" g) (markup script)))).
Proof.
  intros Hg. split.
  - by apply (extract_channel_id_shape soup).
  - by apply extract_channel_id_occurs.
Qed.

Lemma extract_channel_id_sound_witness :
  occurs (json_field "channel_id" "UCabc123")
         (markup (Sample.tag "script" []
            ("<script>{" +:+ quoted "channel_id" +:+ ":" +:+ quoted "UCabc123"
               +:+ "}</script>"))).
Proof.
  destruct (extract_channel_id_sound Examples.page_script_only "UCabc123")
    as [_ [(url & Hurl & _) | (script & [Hin _] & Hocc)]].
  - vm_compute. reflexivity.
  - vm_compute in Hurl. discriminate Hurl.
  - apply list_elem_of_In in Hin. destruct Hin as [<- | []].
    destruct Hocc as [Hocc | (b & a & Hocc)]; [exact Hocc|].
    exists "<script>{", "}</script>". reflexivity.
Defined.

(** X2: on a page whose first [og:url] meta tag, if any, has a content,
    the extraction returns absent exactly when no text of the captured
    shape stands after [/channel/] in the canonical URL or as the value of
    a [channel_id] or [channelId] field in a script tag. *)
Theorem extract_channel_id_absent_iff (soup : list Tag) :
  og_url_well_formed soup →
  extract_channel_id soup = Return None
  ↔ ¬ ∃ g,
        captured_shape g = true
        ∧ ((∃ url, og_url soup = Some url ∧ occurs ("/channel/" +:+ g) url)
           ∨ (∃ script,
                 is_script_of soup script
                 ∧ (occurs (json_field "channel_id" g) (markup script)
                    ∨ occurs (json_field "channelId" g) (markup script)))).
Proof.
  intros Hwf. split.
  - intros Hnone (g & Hshape & Hocc).
    destruct (og_url soup ≫= re.search re_og_channel) as [g'|] eqn:Hog.
    + destruct (og_url soup) as [url|] eqn:Hurl; [|done]. simpl in Hog.
      unfold og_url, extract_channel_id in *.
      destruct (soup_find "meta" "property" "og:url" soup) as [t|]; [|done].
      simpl in Hurl. by rewrite Hurl, Hog in Hnone.
    + rewrite (extract_channel_id_method2 soup Hwf Hog) in Hnone.
      injection Hnone as Hscan. rewrite scan_scripts_None in Hscan.
      destruct Hocc as [(url & Hurl & Hocc) | (script & Hscript & Hocc)].
      * rewrite Hurl in Hog. simpl in Hog.
        rewrite <- (string_app_nil_r g) in Hocc.
        apply (search_finds "/channel/" "") in Hocc; [|done].
        change (is_Some (re.search re_og_channel url)) in Hocc.
        rewrite Hog in Hocc. by destruct Hocc.
      * apply script_of_find_all in Hscript.
        rewrite Forall_forall in Hscan. specialize (Hscan script Hscript).
        destruct (script_id_finds script g Hshape Hocc) as [g' Hg'].
        by rewrite Hscan in Hg'.
  - intros Hno.
    destruct (extract_channel_id soup) as [[g|]|e] eqn:Hext; [|done|].
    + exfalso. apply Hno. exists g. split.
      * by apply (extract_channel_id_shape soup).
      * by apply extract_channel_id_occurs.
    + exfalso. unfold extract_channel_id, og_url_well_formed in *.
      destruct (soup_find "meta" "property" "og:url" soup) as [t|]; [|done].
      destruct (Hwf t eq_refl) as [url Hurl]. rewrite Hurl in Hext.
      destruct (re.search re_og_channel url); [done|].
      by destruct (re.search re_og_handle url).
Qed.

(** On a page whose canonical URL is a handle path and whose two scripts
    hold a [videoId] and a [channelId] that starts with [X], the extraction
    returns absent, so no identifier stands anywhere in it; on the page
    with an identifier in its script, it does not return absent. *)
Lemma extract_channel_id_absent_iff_witness :
  og_url MoreExamples.page_handle_only
  = Some "https://www.youtube.com/@somechannel"
  ∧ length (soup_find_all "script" MoreExamples.page_handle_only) = 2
  ∧ (¬ ∃ g,
        captured_shape g = true
        ∧ ((∃ url,
               og_url MoreExamples.page_handle_only = Some url
               ∧ occurs ("/channel/" +:+ g) url)
           ∨ (∃ script,
                 is_script_of MoreExamples.page_handle_only script
                 ∧ (occurs (json_field "channel_id" g) (markup script)
                    ∨ occurs (json_field "channelId" g) (markup script)))))
  ∧ extract_channel_id Examples.page_script_only ≠ Return None.
Proof.
  split; [reflexivity|]. split; [reflexivity|]. split.
  - apply (extract_channel_id_absent_iff MoreExamples.page_handle_only).
    + intros t Ht. vm_compute in Ht. injection Ht as <-.
      eexists. vm_compute. reflexivity.
    + vm_compute. reflexivity.
  - intros Hnone.
    apply (extract_channel_id_absent_iff Examples.page_script_only) in Hnone.
    + apply Hnone. exists "UCabc123". split; [reflexivity|]. right.
      eexists. split.
      * split; [apply list_elem_of_In; left; reflexivity | reflexivity].
      * left. exists "<script>{", "}</script>". reflexivity.
    + intros t Ht. vm_compute in Ht. discriminate Ht.
Defined.

(** X3: a first [og:url] meta tag without a [content] attribute makes the
    extraction raise [TypeError], whatever else the page holds. *)
Theorem get_youtube_channel_id_missing_content `{Library}
    (src : list Byte.byte) (meta_tag : Tag) :
  soup_find "meta" "property" "og:url" (BeautifulSoup_html src) = Some meta_tag →
  attrs meta_tag !! "content" = None →
  get_youtube_channel_id (Some src) = Raise TypeError.
Proof.
  intros Hfind Hcontent. unfold get_youtube_channel_id, extract_channel_id.
  by rewrite Hfind, Hcontent.
Qed.

Lemma get_youtube_channel_id_missing_content_witness :
  get_youtube_channel_id
    (H := Sample.library MoreExamples.page_without_content []) (Some [])
  = Raise TypeError.
Proof.
  apply (get_youtube_channel_id_missing_content
           (H := Sample.library MoreExamples.page_without_content []) []
           (Sample.tag "meta" [("property", "og:url")] "<meta/>")).
  - vm_compute. reflexivity.
  - vm_compute. reflexivity.
Defined.

(** ** URL builder *)

(** X4: the URL builder returns absent exactly for a value that tests
    false; for a text it returns the base address followed by the text, so
    different identifiers have different feed URLs. *)
Theorem create_rss_feed_url_injective `{Library} :
  (∀ cid, create_rss_feed_url cid = None ↔ truthy cid = false)
  ∧ (∀ c, c ≠ "" →
          create_rss_feed_url (JStr c)
          = Some ("https://www.youtube.com/feeds/videos.xml?channel_id=" +:+ c))
  ∧ (∀ c1 c2 url,
        create_rss_feed_url (JStr c1) = Some url →
        create_rss_feed_url (JStr c2) = Some url →
        c1 = c2).
Proof.
  split_and!.
  - intros cid. unfold create_rss_feed_url. by destruct (truthy cid).
  - intros c Hc. unfold create_rss_feed_url. by rewrite truthy_JStr.
  - intros c1 c2 url. unfold create_rss_feed_url.
    destruct (truthy (JStr c1)), (truthy (JStr c2)); try done.
    intros [= <-] [= Heq]. simpl in Heq.
    by apply (inj (String.app _)) in Heq.
Qed.

Lemma create_rss_feed_url_injective_witness :
  create_rss_feed_url (H := Sample.library [] []) (JStr "UC999")
  = Some "https://www.youtube.com/feeds/videos.xml?channel_id=UC999".
Proof.
  destruct (create_rss_feed_url_injective (H := Sample.library [] []))
    as (_ & Hurl & _).
  apply (Hurl "UC999"). discriminate.
Defined.

(** X5: every identifier the extraction returns has a feed URL, the base
    address followed by the identifier. *)
Theorem extracted_identifier_has_feed_url `{Library} (soup : list Tag)
    (g : string) :
  extract_channel_id soup = Return (Some g) →
  create_rss_feed_url (JStr g)
  = Some ("https://www.youtube.com/feeds/videos.xml?channel_id=" +:+ g).
Proof.
  intros Hshape%extract_channel_id_shape. unfold create_rss_feed_url.
  rewrite truthy_JStr; [done|]. intros ->. done.
Qed.

Lemma extracted_identifier_has_feed_url_witness :
  create_rss_feed_url (H := Sample.library [] []) (JStr "UCabc123")
  = Some "https://www.youtube.com/feeds/videos.xml?channel_id=UCabc123".
Proof.
  apply (extracted_identifier_has_feed_url (H := Sample.library [] [])
           Examples.page_script_only "UCabc123").
  vm_compute. reflexivity.
Defined.

(** ** The retry loop in general *)

Lemma backoff_waits_S b k n :
  backoff_waits b k (S n) = (b ^ k)%Z :: backoff_waits b (k + 1) n.
Proof.
  unfold backoff_waits. simpl. rewrite Z.add_0_r. f_equal.
  rewrite <- fmap_S_seq, <- list_fmap_compose.
  apply list_fmap_ext. intros _ i _. simpl. f_equal. lia.
Qed.

(** X6: with no attempt allowed, [retry_request] returns [None] and never
    calls the function. *)
Theorem retry_request_no_attempts {A} (func : M A) (max_retries b : Z)
    (w : world) :
  (max_retries ≤ 0)%Z →
  retry_request func max_retries b w = (Return None, w).
Proof.
  intros Hm. unfold retry_request.
  replace (Z.to_nat max_retries) with 0 by lia. reflexivity.
Qed.

Lemma retry_request_no_attempts_witness :
  retry_request (lift_sys Examples.flaky) 0 2
    (Examples.world_of MoreExamples.offline)
  = (Return None, Examples.world_of MoreExamples.offline).
Proof. apply (retry_request_no_attempts _ 0 2). lia. Defined.

(** X7: whatever the number of attempts and the base, a first attempt that
    returns gives its value, and a first attempt that raises anything but a
    timeout or a connection error raises it to the caller; either way the
    function ran once and nothing was printed or waited for. *)
Theorem retry_request_first_attempt {A} (f : system → result A * system)
    (max_retries b : Z) (w : world) :
  (1 ≤ max_retries)%Z →
  (∀ v s', f (sys w) = (Return v, s') →
           retry_request (lift_sys f) max_retries b w
           = (Return (Some v), set_sys s' w))
  ∧ (∀ e s', f (sys w) = (Raise e, s') → transient e = false →
             retry_request (lift_sys f) max_retries b w
             = (Raise e, set_sys s' w)).
Proof.
  intros Hm. unfold retry_request.
  destruct (Z.to_nat max_retries) as [|n] eqn:Hn; [lia|]. split.
  - intros v s' Hf. by apply retry_loop_return.
  - intros e s' Hf He. apply retry_loop_propagate; auto.
Qed.

Lemma retry_request_first_attempt_witness :
  retry_request (_fetch "https://example.org/") 5 3
    (Examples.world_of MoreExamples.online)
  = (Return (Some [Byte.x3c]),
     set_sys (log_request "https://example.org/" MoreExamples.online)
       (Examples.world_of MoreExamples.online)).
Proof.
  destruct (retry_request_first_attempt
              (requests_get_content "https://example.org/") 5 3
              (Examples.world_of MoreExamples.online)) as [Hok _]; [lia|].
  apply Hok. reflexivity.
Defined.

(** While an invariant [I] of the system makes every attempt fail with a
    timeout or a connection error, the loop runs to its last iteration. *)
Lemma retry_loop_exhausted {A} (f : system → result A * system)
    (I : system → Prop) m b :
  (0 ≤ b)%Z →
  (∀ s, I s → ∃ e s', f s = (Raise e, s') ∧ transient e = true ∧ I s') →
  ∀ n k w,
    I (sys w) → (k + Z.of_nat (S n) = m)%Z → (0 ≤ k)%Z →
    ∃ e w',
      retry_loop (lift_sys f) m b (S n) k w = (Raise e, w')
      ∧ transient e = true
      ∧ I (sys w')
      ∧ slept w' = slept w ++ backoff_waits b k n
      ∧ length (stdout w') = length (stdout w) + n.
Proof.
  intros Hb Hfail. induction n as [|n IH]; intros k w HI Hk Hk0.
  - destruct (Hfail (sys w) HI) as (e & s' & Hf & He & HI').
    exists e, (set_sys s' w).
    rewrite (retry_loop_propagate f m b 0 k w e s' Hf) by (right; lia).
    split_and!; [done..| |]; simpl; [by rewrite app_nil_r | lia].
  - destruct (Hfail (sys w) HI) as (e & s' & Hf & He & HI').
    rewrite (retry_loop_backoff f m b (S n) k w e s' Hf He)
      by (lia || by apply Z.pow_nonneg).
    destruct (IH (k + 1)%Z
                (after_backoff s' (retry_message (retry_what e) (b ^ k) k m)
                               (b ^ k) w))
      as (e' & w' & -> & He' & HI'' & Hs & Ho); [done | lia..|].
    exists e', w'. split_and!; [done..| |].
    + rewrite Hs, backoff_waits_S. simpl. by rewrite <- app_assoc.
    + rewrite Ho. simpl. rewrite length_app. simpl. lia.
Qed.



(** ** The fetchers *)

Lemma retry_loop_fetch_bounds url m b n k w r w' :
  (k + Z.of_nat (S n) = m)%Z →
  retry_loop (_fetch url) m b (S n) k w = (r, w') →
  ∃ j waits,
    1 ≤ j ≤ S n
    ∧ requests_log (sys w') = requests_log (sys w) ++ replicate j url
    ∧ slept w' = slept w ++ waits
    ∧ length waits < j.
Proof.
  revert k w. induction n as [|n IH]; intros k w Hk;
    unfold _fetch; rewrite retry_loop_step;
    pose proof (requests_get_content_state url (sys w)) as Hs;
    destruct (requests_get_content url (sys w)) as [[v|e] s']; simpl in Hs;
    subst s'.
  - intros [= <- <-]. exists 1, []. simpl. rewrite app_nil_r.
    split_and!; [lia|lia|done..|lia].
  - replace (k <? m - 1)%Z with false by (symmetry; apply Z.ltb_ge; lia).
    rewrite andb_false_r.
    intros [= <- <-]. exists 1, []. simpl. rewrite app_nil_r.
    split_and!; [lia|lia|done..|lia].
  - intros [= <- <-]. exists 1, []. simpl. rewrite app_nil_r.
    split_and!; [lia|lia|done..|lia].
  - destruct (transient e && (k <? m - 1)%Z).
    + cbv zeta. destruct (b ^ k <? 0)%Z.
      * intros [= <- <-]. exists 1, []. simpl. rewrite app_nil_r.
        split_and!; [lia|lia|done..|lia].
      * intros (j & waits & Hj & Hlog & Hsl & Hlen)%IH; [|lia].
        simpl in Hlog, Hsl.
        exists (S j), ((b ^ k)%Z :: waits). split_and!.
        -- lia.
        -- lia.
        -- rewrite Hlog, <- app_assoc. done.
        -- rewrite Hsl, <- app_assoc. done.
        -- simpl. lia.
    + intros [= <- <-]. exists 1, []. simpl. rewrite app_nil_r.
      split_and!; [lia|lia|done..|lia].
Qed.

(** X9: whatever the network does, [retry_request] over a fetch of [url]
    issues at least one and at most [max_retries] requests, all of them
    for [url], and waits fewer times than it issued requests. *)
Theorem retry_request_fetch_bounds (url : string) (max_retries b : Z)
    (w w' : world) (r : result (option (list Byte.byte))) :
  (1 ≤ max_retries)%Z →
  retry_request (_fetch url) max_retries b w = (r, w') →
  ∃ j waits,
    1 ≤ j ≤ Z.to_nat max_retries
    ∧ requests_log (sys w') = requests_log (sys w) ++ replicate j url
    ∧ slept w' = slept w ++ waits
    ∧ length waits < j.
Proof.
  intros Hm. unfold retry_request.
  destruct (Z.to_nat max_retries) as [|n] eqn:Hn; [lia|].
  apply retry_loop_fetch_bounds. lia.
Qed.

Lemma retry_request_fetch_bounds_witness :
  ∃ j waits,
    1 ≤ j ≤ 3
    ∧ requests_log
        (sys (snd (retry_request (_fetch "https://example.org/") 3 2
                     (Examples.world_of MoreExamples.offline))))
      = replicate j "https://example.org/"
    ∧ slept (snd (retry_request (_fetch "https://example.org/") 3 2
                    (Examples.world_of MoreExamples.offline)))
      = waits
    ∧ length waits < j.
Proof.
  apply (retry_request_fetch_bounds "https://example.org/" 3 2
           (Examples.world_of MoreExamples.offline) _
           (fst (retry_request (_fetch "https://example.org/") 3 2
                   (Examples.world_of MoreExamples.offline)))); [lia|].
  by destruct (retry_request _ _ _ _).
Defined.

(** Run a handler that only prints and returns. *)
Ltac run_handler :=
  unfold bind, print, ret; simpl;
  repeat (match goal with
          | |- context [(?a =? ?b)%Z] => destruct (a =? b)%Z; simpl
          end);
  first
    [ done
    | by eexists [_]
    | eexists [_; _]; unfold printed; simpl; by rewrite <- app_assoc ].

(** For the exceptions of [requests], the handlers of the page fetcher
    return [None]. *)
Lemma get_youtube_source_code_handler url w :
  ∀ r1 w1,
    retry_request (_fetch url) 3 2 w = (r1, w1) →
    match r1 with
    | Return v => get_youtube_source_code url w = (Return v, w1)
    | Raise e =>
        match isinstance_RequestException e with
        | Some _ =>
            ∃ lines, get_youtube_source_code url w
                     = (Return None, printed lines w1)
        | None => get_youtube_source_code url w = (Raise e, w1)
        end
    end.
Proof.
  intros r1 w1 Hr. unfold get_youtube_source_code, try_except. rewrite Hr.
  destruct r1 as [v|e]; [done|].
  destruct e; simpl; run_handler.
Qed.

Lemma fetch_rss_feed_content_handler `{Library} url limit w :
  ∀ e w1,
    retry_request (_fetch url) 3 2 w = (Raise e, w1) →
    match isinstance_RequestException e with
    | Some _ =>
        ∃ lines, fetch_rss_feed_content url limit w
                 = (Return None, printed lines w1)
    | None => fetch_rss_feed_content url limit w = (Raise e, w1)
    end.
Proof.
  intros e w1 Hr. unfold fetch_rss_feed_content, try_except, bind.
  rewrite Hr.
  destruct e; simpl; run_handler.
Qed.

(** X10: neither fetcher lets an exception of [requests] through: what
    they raise, if anything, is an exception of another kind, and a timeout,
    a connection error or an HTTP error always ends in [None]. *)
Theorem fetchers_catch_request_exceptions `{Library} (url : string)
    (limit : Z) (w : world) :
  (∀ e w', get_youtube_source_code url w = (Raise e, w') →
           isinstance_RequestException e = None)
  ∧ (∀ e w', fetch_rss_feed_content url limit w = (Raise e, w') →
             isinstance_RequestException e = None).
Proof.
  split; intros e w' Hraise.
  - destruct (retry_request (_fetch url) 3 2 w) as [[v|e1] w1] eqn:Hr;
      apply get_youtube_source_code_handler in Hr.
    + by rewrite Hr in Hraise.
    + destruct (isinstance_RequestException e1) eqn:He1.
      * destruct Hr as [lines Hr]. by rewrite Hr in Hraise.
      * rewrite Hr in Hraise. by injection Hraise as <- _.
  - destruct (retry_request (_fetch url) 3 2 w) as [[v|e1] w1] eqn:Hr.
    + unfold fetch_rss_feed_content, try_except, bind in Hraise.
      rewrite Hr in Hraise.
      destruct v as [content|]; [|done].
      by destruct lxml_installed.
    + apply (fetch_rss_feed_content_handler url limit) in Hr.
      destruct (isinstance_RequestException e1) eqn:He1.
      * destruct Hr as [lines Hr]. by rewrite Hr in Hraise.
      * rewrite Hr in Hraise. by injection Hraise as <- _.
Qed.

Lemma fetchers_catch_request_exceptions_witness :
  isinstance_RequestException (OtherException "KeyboardInterrupt") = None.
Proof.
  destruct (fetchers_catch_request_exceptions (H := Sample.library [] [])
              "https://x/@foo" 5 (Examples.world_of MoreExamples.interrupted))
    as [Hpage _].
  apply (Hpage (OtherException "KeyboardInterrupt")
           (set_sys (log_request "https://x/@foo" MoreExamples.interrupted)
              (Examples.world_of MoreExamples.interrupted))).
  vm_compute. reflexivity.
Defined.

Lemma requests_get_content_down url s :
  network_down url s →
  ∃ e s',
    requests_get_content url s = (Raise e, s') ∧ transient e = true
    ∧ network_down url s'.
Proof.
  intros Hdown. destruct (Hdown (length (requests_log s))) as (e & He & Ht).
  exists e, (log_request url s). unfold requests_get_content. by rewrite He.
Qed.

Lemma transient_is_request_exception e :
  transient e = true → is_Some (isinstance_RequestException e).
Proof. by destruct e. Qed.

(** When every GET of the page fails with a timeout or a connection
    error, the page fetcher gives up after three requests and two waits. *)
Lemma get_youtube_source_code_down (url : string) (w : world) :
  network_down url (sys w) →
  ∃ w',
    get_youtube_source_code url w = (Return None, w')
    ∧ requests_log (sys w') = requests_log (sys w) ++ [url; url; url]
    ∧ slept w' = slept w ++ [1; 2]%Z
    ∧ cache_part (sys w') = cache_part (sys w).
Proof.
  intros Hdown.
  destruct (retry_loop_exhausted (requests_get_content url)
              (network_down url) 3 2) with (n := 2) (k := 0%Z) (w := w)
    as (e & w1 & Hrun & He & _ & Hslept & _);
    [lia | apply requests_get_content_down | done | lia | lia |].
  assert (Hretry : retry_request (_fetch url) 3 2 w = (Raise e, w1)) by done.
  destruct (retry_loop_fetch_bounds url 3 2 2 0 w _ _ eq_refl Hrun)
    as (j & waits & Hj & Hlog & Hwaits & Hlen).
  rewrite Hslept in Hwaits. apply app_inv_head in Hwaits. subst waits.
  assert (j = 3) as -> by (simpl in Hlen; lia).
  pose proof (get_youtube_source_code_handler url w _ _ Hretry) as Hh.
  simpl in Hh. destruct (transient_is_request_exception e He) as [msg Hmsg].
  rewrite Hmsg in Hh. destruct Hh as [lines Hh].
  exists (printed lines w1). split_and!; [done..|].
  by apply get_youtube_source_code_frame in Hh as [? _].
Qed.

Lemma requests_get_content_ok url s status content :
  internet s url (length (requests_log s)) = Response status content →
  (status < 400 ∨ 600 ≤ status)%Z →
  requests_get_content url s = (Return content, log_request url s).
Proof.
  intros Hreply Hstatus. unfold requests_get_content. rewrite Hreply.
  destruct (Z.leb_spec 400 status), (Z.ltb_spec status 600); simpl;
    try done; lia.
Qed.

(** X11: on a reply whose status is not from 400 to 599, the feed fetcher
    issues that one request and returns the first [limit] entries of the
    parsed feed, in document order (all but the last [-limit] for a
    negative [limit]); without the XML tree builder it prints how to
    install it and returns [None]. *)
Theorem fetch_rss_feed_content_on_reply `{Library} (url : string) (limit : Z)
    (w : world) (status : Z) (content : list Byte.byte) :
  internet (sys w) url (length (requests_log (sys w)))
  = Response status content →
  (status < 400 ∨ 600 ≤ status)%Z →
  let w1 := set_sys (log_request url (sys w)) w in
  let parsed := BeautifulSoup_xml_entries content in
  let entries := slice_to limit parsed in
  fetch_rss_feed_content url limit w
  = (if lxml_installed then (Return (Some entries), w1)
     else (Return None,
           printed
             ["Error: Couldn't find a tree builder with the features you requested: xml."
                +:+ " Please install the 'lxml' parser library using 'pip install lxml'."]
             w1))
  ∧ entries `prefix_of` parsed
  ∧ ((0 ≤ limit)%Z → length entries = min (Z.to_nat limit) (length parsed))
  ∧ ((limit < 0)%Z →
     length entries = length parsed - Z.to_nat (- limit)).
Proof.
  intros Hreply Hstatus w1 parsed entries. split_and!.
  - pose proof (requests_get_content_ok url (sys w) status content
                  Hreply Hstatus) as Hget.
    unfold fetch_rss_feed_content, try_except, bind, retry_request, _fetch.
    change (Z.to_nat 3) with 3.
    rewrite (retry_loop_return (requests_get_content url) 3 2 2 0 w content
               (log_request url (sys w)) Hget).
    by destruct lxml_installed.
  - unfold entries, slice_to. destruct (0 <=? limit)%Z; apply prefix_take.
  - intros Hl. unfold entries, slice_to.
    rewrite (proj2 (Z.leb_le 0 limit) Hl). by rewrite length_take.
  - intros Hl. unfold entries, slice_to.
    rewrite (proj2 (Z.leb_gt 0 limit) Hl). rewrite length_take. lia.
Qed.

Lemma fetch_rss_feed_content_on_reply_witness :
  fetch_rss_feed_content (H := Sample.library [] Examples.feed)
    "https://example.org/feed" 2 (Examples.world_of MoreExamples.online)
  = (Return (Some (take 2 Examples.feed)),
     set_sys (log_request "https://example.org/feed" MoreExamples.online)
       (Examples.world_of MoreExamples.online)).
Proof.
  apply (fetch_rss_feed_content_on_reply (H := Sample.library [] Examples.feed)
           "https://example.org/feed" 2
           (Examples.world_of MoreExamples.online) 200 [Byte.x3c]).
  - reflexivity.
  - lia.
Defined.

(** ** The cache store, further *)








(** X13: a cache file whose JSON value is not an object makes every
    lookup with caching enabled raise [AttributeError]; the main block then
    fails before any request is issued. *)
Theorem non_object_cache_raises `{Library} (w : world) (j : json) :
  cache_file (sys w) = Parsed j →
  (∀ d, j ≠ JDict d) →
  (∀ url, get_cached_channel_id url true w = (Raise AttributeError, w))
  ∧ (∀ url quiet,
        resolve_channel_id url false quiet w = (Raise AttributeError, w)).
Proof.
  intros Hfile Hj.
  assert (Hlookup : ∀ url,
            get_cached_channel_id url true w = (Raise AttributeError, w)).
  { intros url. unfold get_cached_channel_id. simpl.
    unfold bind at 1. rewrite load_cache_eq, Hfile.
    destruct j; try done. by destruct (Hj d). }
  split; [done|].
  intros url quiet. unfold resolve_channel_id. simpl negb.
  unfold bind at 1. by rewrite Hlookup.
Qed.

Lemma non_object_cache_raises_witness :
  resolve_channel_id (H := Sample.library [] []) "https://x/@foo" false true
    (Examples.world_of (Examples.system_with_cache (JList [])))
  = (Raise AttributeError,
     Examples.world_of (Examples.system_with_cache (JList []))).
Proof.
  apply (non_object_cache_raises (H := Sample.library [] [])
           (Examples.world_of (Examples.system_with_cache (JList [])))
           (JList [])).
  - reflexivity.
  - discriminate.
Defined.



(** [clear_cache] by the state of the file. *)
Lemma clear_cache_eq w :
  clear_cache w
  = match cache_file (sys w) with
    | NoDirectory e => (Raise e, w)
    | NoAccess msg => (Raise (OSError msg), w)
    | Absent => (Return tt, printed ["No cache file to clear."] w)
    | _ =>
        match cache_unlink_error (sys w) with
        | Some msg => (Raise (OSError msg), w)
        | None =>
            (Return tt,
             printed ["Cache cleared: " +:+ cache_path (sys w)]
               (set_sys (set_cache_file Absent (sys w)) w))
        end
    end.
Proof.
  unfold clear_cache, bind, get_cache_file_path, path_exists,
    unlink_cache_file, print, printed.
  destruct (cache_file (sys w)) eqn:Hf; simpl; rewrite ?Hf; try reflexivity;
    destruct (cache_unlink_error (sys w)); reflexivity.
Qed.

(** X15: [clear_cache] raises only when the directory of the cache cannot
    be made or searched, or when the file is there and cannot be removed:
    it raises what [get_cache_file_path], [exists] or [unlink] raises, and
    nothing is then printed or removed.  When it returns, no cache file is left: every
    lookup is a miss, and clearing again only reports that there is nothing
    to clear.  It returns whenever the file is missing, and whenever the
    file is there and can be removed; the report then names the path. *)
Theorem clear_cache_empties (w : world) :
  (∀ e w1,
      clear_cache w = (Raise e, w1) →
      w1 = w
      ∧ (cache_file (sys w) = NoDirectory e
         ∨ ∃ msg,
             e = OSError msg
             ∧ (cache_file (sys w) = NoAccess msg
                ∨ (file_there (cache_file (sys w)) = true
                   ∧ cache_unlink_error (sys w) = Some msg))))
  ∧ (∀ w1,
        clear_cache w = (Return tt, w1) →
        cache_file (sys w1) = Absent
        ∧ (∀ url, get_cached_channel_id url true w1 = (Return JNull, w1))
        ∧ clear_cache w1
          = (Return tt, printed ["No cache file to clear."] w1))
  ∧ (cache_file (sys w) = Absent →
     clear_cache w = (Return tt, printed ["No cache file to clear."] w))
  ∧ (file_there (cache_file (sys w)) = true →
     cache_unlink_error (sys w) = None →
     clear_cache w
     = (Return tt,
        printed ["Cache cleared: " +:+ cache_path (sys w)]
          (set_sys (set_cache_file Absent (sys w)) w))).
Proof.
  split_and!.
  - intros e w1. rewrite clear_cache_eq.
    destruct (cache_file (sys w)) eqn:Hf;
      try destruct (cache_unlink_error (sys w)) eqn:Hu;
      intros [= <- <-]; (split; [done|]); eauto 6.
  - intros w1 Hrun.
    assert (Hfile : cache_file (sys w1) = Absent).
    { rewrite clear_cache_eq in Hrun.
      destruct (cache_file (sys w)) eqn:Hf;
        try destruct (cache_unlink_error (sys w));
        by simplify_eq. }
    split_and!; [done| |].
    + intros url. rewrite (get_cached_channel_id_dict url w1 ∅).
      * by rewrite lookup_empty.
      * unfold cache_dict. by rewrite Hfile.
    + by rewrite clear_cache_eq, Hfile.
  - intros Hf. by rewrite clear_cache_eq, Hf.
  - intros Hf Hu. rewrite clear_cache_eq, Hu.
    by destruct (cache_file (sys w)).
Qed.

Lemma clear_cache_empties_witness :
  let w :=
    Examples.world_of
      (Examples.system_with_cache (JDict Examples.legacy_cache)) in
  let w1 := snd (clear_cache w) in
  get_cached_channel_id "https://x/@foo" true w
  = (Return (JStr "UC999"), w)
  ∧ get_cached_channel_id "https://x/@foo" true w1 = (Return JNull, w1)
  ∧ stdout w1 = ["Cache cleared: /home/user/.youtuberss/cache.json"].
Proof.
  intros w w1. split; [reflexivity|]. split.
  - destruct (clear_cache_empties w) as (_ & Hreturns & _).
    destruct (Hreturns w1) as (_ & Hmiss & _); [reflexivity|].
    apply Hmiss.
  - reflexivity.
Defined.

(** ** The main block, further *)

Lemma resolve_channel_id_truthy `{Library} url quiet w d :
  cache_dict (sys w) = Some d →
  truthy (normalize (default JNull (d !! url))) = true →
  resolve_channel_id url false quiet w
  = (Return (normalize (default JNull (d !! url))),
     if quiet then w
     else printed
            ["Using cached channel ID: "
               +:+ py_str (normalize (default JNull (d !! url)))] w).
Proof.
  intros Hd Hv. unfold resolve_channel_id. simpl negb. unfold bind at 1.
  rewrite (get_cached_channel_id_dict url w d Hd), Hv. by destruct quiet.
Qed.

Lemma resolve_channel_id_falsy `{Library} url quiet w d :
  cache_dict (sys w) = Some d →
  truthy (normalize (default JNull (d !! url))) = false →
  resolve_channel_id url false quiet w = resolve_from_page url true w.
Proof.
  intros Hd Hv. unfold resolve_channel_id. simpl negb. unfold bind at 1.
  by rewrite (get_cached_channel_id_dict url w d Hd), Hv.
Qed.

(** X16: with caching enabled and a cache that loads, a resolution issues
    no request exactly when the record of the reference normalizes to a
    value that tests true, and then that value is the result. *)
Theorem resolve_channel_id_hit_iff_no_request `{Library} (url : string)
    (quiet : bool) (w : world) (d : gmap string json) :
  cache_dict (sys w) = Some d →
  let v := normalize (default JNull (d !! url)) in
  let run := resolve_channel_id url false quiet w in
  (requests_log (sys (snd run)) = requests_log (sys w) ↔ truthy v = true)
  ∧ (truthy v = true → fst run = Return v).
Proof.
  intros Hd v run. unfold run.
  destruct (truthy v) eqn:Hv.
  - rewrite (resolve_channel_id_truthy url quiet w d Hd Hv).
    split; [|done]. by destruct quiet.
  - rewrite (resolve_channel_id_falsy url quiet w d Hd Hv).
    split; [|done]. split; [|done]. intros Hlog.
    destruct (resolve_from_page url true w) as [r w'] eqn:Hr.
    apply resolve_from_page_requests in Hr as [more Hmore].
    simpl in Hlog. rewrite Hmore in Hlog.
    apply (f_equal length) in Hlog. rewrite length_app in Hlog.
    simpl in Hlog. lia.
Qed.

Lemma resolve_channel_id_hit_iff_no_request_witness :
  let w :=
    Examples.world_of
      (Examples.system_with_cache (JDict Examples.current_cache)) in
  fst (resolve_channel_id (H := Sample.library [] []) "https://x/@foo" false
         true w)
  = Return (JStr "UC999").
Proof.
  intros w.
  destruct (resolve_channel_id_hit_iff_no_request (H := Sample.library [] [])
              "https://x/@foo" true w Examples.current_cache) as [_ Hhit].
  - reflexivity.
  - rewrite Hhit; vm_compute; reflexivity.
Defined.





(** X18: when every GET of the page fails with a timeout or a connection
    error, the page fetcher returns [None] after exactly three requests and
    the waits of 1 and 2 seconds, and a resolution that does not hit the
    cache ends the program with exit status 1, the cache left alone. *)
Theorem network_down_ends_resolution `{Library} (url : string) (w : world) :
  network_down url (sys w) →
  (∃ w',
      get_youtube_source_code url w = (Return None, w')
      ∧ requests_log (sys w') = requests_log (sys w) ++ [url; url; url]
      ∧ slept w' = slept w ++ [1; 2]%Z)
  ∧ (∀ no_cache quiet,
        (no_cache = true
         ∨ ∃ d, cache_dict (sys w) = Some d
                ∧ truthy (normalize (default JNull (d !! url))) = false) →
        ∃ w',
          resolve_channel_id url no_cache quiet w = (Raise (SystemExit 1), w')
          ∧ requests_log (sys w') = requests_log (sys w) ++ [url; url; url]
          ∧ slept w' = slept w ++ [1; 2]%Z
          ∧ cache_part (sys w') = cache_part (sys w)).
Proof.
  intros Hdown.
  destruct (get_youtube_source_code_down url w Hdown)
    as (w1 & Hsrc & Hlog & Hslept & Hpart).
  split; [by exists w1|].
  intros no_cache quiet Hmiss.
  assert (Hpage : ∀ use_cache,
            resolve_from_page url use_cache w
            = (Raise (SystemExit 1),
               printed
                 ["Error: Could not fetch YouTube page content.";
                  "Suggestion: Check the URL format (e.g., https://www.youtube.com/channel/CHANNEL_ID)"]
                 w1)).
  { intros use_cache. unfold resolve_from_page. unfold bind at 1.
    rewrite Hsrc. unfold bind, print, raise, printed. simpl.
    by rewrite <- app_assoc. }
  exists (printed
            ["Error: Could not fetch YouTube page content.";
             "Suggestion: Check the URL format (e.g., https://www.youtube.com/channel/CHANNEL_ID)"]
            w1).
  split; [|done].
  assert (Hno_cache : resolve_channel_id url true quiet w
                      = resolve_from_page url false w) by done.
  destruct Hmiss as [-> | (d & Hd & Hv)]; [by rewrite Hno_cache|].
  destruct no_cache; [by rewrite Hno_cache|].
  rewrite (resolve_channel_id_falsy url quiet w d Hd Hv). apply Hpage.
Qed.

Lemma network_down_ends_resolution_witness :
  ∃ w',
    resolve_channel_id (H := Sample.library [] []) "https://x/@foo" false true
      (Examples.world_of MoreExamples.offline) = (Raise (SystemExit 1), w')
    ∧ requests_log (sys w')
      = ["https://x/@foo"; "https://x/@foo"; "https://x/@foo"]
    ∧ slept w' = [1; 2]%Z
    ∧ cache_part (sys w') = cache_part MoreExamples.offline.
Proof.
  destruct (network_down_ends_resolution (H := Sample.library [] [])
              "https://x/@foo" (Examples.world_of MoreExamples.offline))
    as [_ Hexit].
  - intros n. exists ConnectionError. split; reflexivity.
  - apply (Hexit false true). right. exists ∅. split; reflexivity.
Defined.

(** ** The entry filter, further *)

Lemma date_eqb_leb d a : date_eqb d a = date_leb a d && date_leb d a.
Proof.
  unfold date_leb, date_ltb, date_eqb.
  destruct (Z.ltb_spec (year d) (year a)), (Z.ltb_spec (year a) (year d)),
    (Z.eqb_spec (year d) (year a)), (Z.eqb_spec (year a) (year d)),
    (Z.ltb_spec (month d) (month a)), (Z.ltb_spec (month a) (month d)),
    (Z.eqb_spec (month d) (month a)), (Z.eqb_spec (month a) (month d)),
    (Z.ltb_spec (day d) (day a)), (Z.ltb_spec (day a) (day d)),
    (Z.eqb_spec (day d) (day a)), (Z.eqb_spec (day a) (day d));
    simpl; try reflexivity; lia.
Qed.

Lemma filter_all {A} (P : A → Prop) `{∀ x, Decision (P x)} (l : list A) :
  Forall P l → filter P l = l.
Proof.
  induction 1 as [|x l Hx _ IH]; [done|].
  rewrite filter_cons, decide_True by done. by rewrite IH.
Qed.

Section FilterMore.
Context `{Library}.
Implicit Types (e : Entry) (entries : list Entry).
Implicit Types (filter_by filter_value : option string).
Implicit Types (a b : option date).

Lemma read_entry_inv e t p l dt :
  read_entry e = Return (t, p, l, dt) →
  well_formed_entry e
  ∧ video_of e = {| title := t; published := p; link := l |}.
Proof.
  unfold read_entry, well_formed_entry, published_date, video_of.
  destruct (entry_title e) as [t'|]; [|done]. simpl.
  destruct (entry_published e) as [p'|]; [|done]. simpl.
  destruct (entry_link e) as [[l'|]|]; [|done..]. simpl.
  destruct (strptime_iso p') as [dt'|]; [|done]. simpl.
  intros [= -> -> -> ->]. eauto 10.
Qed.

(** What the loop returns, when it returns, is its accumulator followed
    by the records of some of the entries, in their order; and every entry
    could be read. *)
Lemma filter_loop_returns entries filter_by filter_value a b acc vs :
  filter_loop entries filter_by filter_value a b acc = Return vs →
  Forall well_formed_entry entries
  ∧ ∃ kept, kept `sublist_of` entries ∧ vs = acc ++ (video_of <$> kept).
Proof.
  revert acc. induction entries as [|e entries IH]; intros acc; simpl.
  - intros [= <-]. split; [done|]. exists []. by rewrite app_nil_r.
  - destruct (read_entry e) as [[[[t p] l] dt]|] eqn:Hread; [|done]. simpl.
    apply read_entry_inv in Hread as [Hwf Hvideo].
    destruct (passes filter_by filter_value a b t dt) as [[]|]; simpl;
      [| |done].
    + intros (Hall & kept & Hsub & ->)%IH. split; [by constructor|].
      exists (e :: kept). split; [by constructor|].
      by rewrite fmap_cons, Hvideo, <- app_assoc.
    + intros (Hall & kept & Hsub & ->)%IH. split; [by constructor|].
      exists kept. split; [by constructor|done].
Qed.

Lemma retained_no_criteria e filter_value :
  well_formed_entry e → retained None filter_value None None e = true.
Proof.
  intros ([t Ht] & [d Hd] & _). unfold retained. by rewrite Ht, Hd.
Qed.

Lemma passes_title_without_value a b t dt :
  after_ok a (dt_date dt) = true → before_ok b (dt_date dt) = true →
  passes (Some "title") None a b t dt = Raise AttributeError.
Proof.
  intros Ha Hb. unfold passes, after_ok, before_ok in *.
  destruct a as [a0|]; [rewrite date_ltb_leb, Ha|]; simpl.
  all: destruct b as [b0|]; [rewrite date_ltb_leb, Hb|]; simpl.
  all: done.
Qed.

Lemma passes_date_without_value a b t dt :
  after_ok a (dt_date dt) = true → before_ok b (dt_date dt) = true →
  passes (Some "date") None a b t dt = Raise TypeError.
Proof.
  intros Ha Hb. unfold passes, after_ok, before_ok in *.
  destruct a as [a0|]; [rewrite date_ltb_leb, Ha|]; simpl.
  all: destruct b as [b0|]; [rewrite date_ltb_leb, Hb|]; simpl.
  all: done.
Qed.

End FilterMore.

(** X19: whatever the criteria, when [filter_videos] returns, every entry
    it was given could be read, the result lists records of some of the
    entries in their order, and it is no longer than the list of entries;
    after a non-negative limit it has at most [limit] records. *)
Theorem filter_videos_returns `{Library} (entries : list Entry)
    (filter_by filter_value after_date before_date : option string)
    (vs : list Video) :
  filter_videos entries filter_by filter_value after_date before_date
  = Return vs →
  Forall well_formed_entry entries
  ∧ vs `sublist_of` (video_of <$> entries)
  ∧ length vs ≤ length entries
  ∧ (∀ feed limit,
        entries = slice_to limit feed → (0 ≤ limit)%Z →
        length vs ≤ Z.to_nat limit
        ∧ vs `sublist_of` (video_of <$> feed)).
Proof.
  unfold filter_videos.
  destruct (parse_bound after_date) as [a|]; [|done].
  destruct (parse_bound before_date) as [b|]; [|done]. simpl.
  intros (Hall & kept & Hsub & ->)%filter_loop_returns. simpl.
  assert (Hlen : length (video_of <$> kept) ≤ length entries).
  { rewrite length_fmap. by apply sublist_length. }
  assert (Hvs : (video_of <$> kept) `sublist_of` (video_of <$> entries))
    by (by apply fmap_sublist).
  split_and!; [done..|].
  intros feed limit -> Hlimit. unfold slice_to in *.
  rewrite (proj2 (Z.leb_le 0 limit) Hlimit) in *. split.
  - rewrite length_take in Hlen. lia.
  - etrans; [exact Hvs|]. apply fmap_sublist, sublist_take.
Qed.

Lemma filter_videos_returns_witness :
  let lib := Sample.library [] [] in
  let vs :=
    match filter_videos (H := lib) (slice_to 3 Examples.feed) None None
            (Some "2023-01-01") None with
    | Return vs => vs
    | Raise _ => []
    end in
  length vs ≤ 3 ∧ vs `sublist_of` (video_of <$> Examples.feed).
Proof.
  intros lib vs.
  destruct (filter_videos_returns (H := lib) (slice_to 3 Examples.feed)
              None None (Some "2023-01-01") None vs) as (_ & _ & _ & Hlimit).
  - vm_compute. reflexivity.
  - apply (Hlimit Examples.feed 3%Z); [reflexivity | lia].
Defined.

(** X20: without criteria every entry is kept: on well-formed entries
    [filter_videos] returns the record of each entry, in order. *)
Theorem filter_videos_no_criteria `{Library} (entries : list Entry)
    (filter_value : option string) :
  Forall well_formed_entry entries →
  filter_videos entries None filter_value None None
  = Return (video_of <$> entries).
Proof.
  intros Hwf. unfold filter_videos. simpl.
  rewrite filter_loop_spec; [|done|by split].
  simpl. rewrite filter_all; [done|].
  eapply Forall_impl; [exact Hwf|]. intros e He.
  by rewrite retained_no_criteria.
Qed.

Lemma filter_videos_no_criteria_witness :
  filter_videos (H := Sample.library [] []) Examples.feed None None None None
  = Return (video_of <$> Examples.feed).
Proof.
  apply (filter_videos_no_criteria (H := Sample.library [] []) Examples.feed
           None).
  repeat constructor; vm_compute; eauto.
Defined.

(** X21: the exact-date mode is the date range with both bounds on that
    date: filtering by [date] with value [v] gives the same result as
    filtering with the after and the before date both set to [v]. *)
Theorem exact_date_is_range `{Library} (entries : list Entry) (v : string)
    (filter_date : datetime) :
  Forall well_formed_entry entries →
  v ≠ "" →
  strptime_ymd v = Some filter_date →
  filter_videos entries (Some "date") (Some v) None None
  = filter_videos entries None None (Some v) (Some v).
Proof.
  intros Hwf Hv Hparse. unfold filter_videos, parse_bound.
  destruct (String.eqb_spec v ""); [done|]. rewrite Hparse. simpl.
  rewrite !filter_loop_spec; [|done|by split|done|].
  2:{ split; [|done]. intros _. simpl. by rewrite Hparse. }
  simpl. do 2 f_equal. apply list_filter_iff. intros e.
  unfold retained, exact_date_ok, title_ok, after_ok, before_ok.
  destruct (entry_title e); [|done]. destruct (published_date e); [|done].
  simpl. rewrite Hparse. rewrite date_eqb_leb.
  by rewrite !andb_true_r.
Qed.

Lemma exact_date_is_range_witness :
  filter_videos (H := Sample.library [] []) Examples.feed
    (Some "date") (Some "2023-06-30") None None
  = filter_videos (H := Sample.library [] []) Examples.feed
      None None (Some "2023-06-30") (Some "2023-06-30").
Proof.
  apply (exact_date_is_range (H := Sample.library [] []) Examples.feed
           "2023-06-30"
           {| dt_date := Date 2023 6 30; dt_seconds := 0;
              dt_utcoffset := None |}).
  - repeat constructor; vm_compute; eauto.
  - discriminate.
  - reflexivity.
Defined.

(** X22: an entry without a [title], [published] or [link] element, or
    whose link has no [href], is not skipped: it makes [filter_videos]
    raise.  When it is the first entry and the date bounds parse, the error
    is [AttributeError] for a missing title or published element,
    [TypeError] for a missing link and [KeyError] for a missing [href]. *)
Theorem entry_missing_field_raises `{Library} (entries : list Entry)
    (filter_by filter_value after_date before_date : option string) :
  (∀ e, e ∈ entries →
        entry_title e = None ∨ entry_published e = None
        ∨ entry_link e = None ∨ entry_link e = Some None →
        is_raise (filter_videos entries filter_by filter_value
                    after_date before_date) = true)
  ∧ (∀ e rest a b,
        entries = e :: rest →
        parse_bound after_date = Return a →
        parse_bound before_date = Return b →
        (entry_title e = None →
         filter_videos entries filter_by filter_value after_date before_date
         = Raise AttributeError)
        ∧ (is_Some (entry_title e) → entry_published e = None →
           filter_videos entries filter_by filter_value after_date before_date
           = Raise AttributeError)
        ∧ (is_Some (entry_title e) → is_Some (entry_published e) →
           entry_link e = None →
           filter_videos entries filter_by filter_value after_date before_date
           = Raise TypeError)
        ∧ (is_Some (entry_title e) → is_Some (entry_published e) →
           entry_link e = Some None →
           filter_videos entries filter_by filter_value after_date before_date
           = Raise KeyError)).
Proof.
  split.
  - intros e He Hmissing. unfold filter_videos.
    apply is_raise_rbind; intros a _. apply is_raise_rbind; intros b _.
    apply (filter_loop_raises _ _ _ _ _ _ e He). left. unfold read_entry.
    destruct (entry_title e); [|done]. simpl.
    destruct (entry_published e); [|done]. simpl.
    destruct (entry_link e) as [[href|]|]; [|done..].
    by destruct Hmissing as [? | [? | [? | ?]]].
  - intros e rest a b -> Ha Hb. unfold filter_videos. rewrite Ha, Hb. simpl.
    unfold read_entry. split_and!.
    + by intros ->.
    + by intros [t ->] ->.
    + by intros [t ->] [p ->] ->.
    + by intros [t ->] [p ->] ->.
Qed.

Lemma entry_missing_field_raises_witness :
  filter_videos (H := Sample.library [] [])
    (MoreExamples.untitled :: Examples.feed) None None None None
  = Raise AttributeError.
Proof.
  destruct (entry_missing_field_raises (H := Sample.library [] [])
              (MoreExamples.untitled :: Examples.feed) None None None None)
    as [_ Hfirst].
  destruct (Hfirst MoreExamples.untitled Examples.feed None None)
    as (Htitle & _); [reflexivity..|].
  apply Htitle. reflexivity.
Defined.

(** X23: a legacy mode given without its value makes [filter_videos]
    raise as soon as a readable entry within the date range comes first:
    [AttributeError] in the [title] mode, [TypeError] in the [date] mode. *)
Theorem legacy_mode_without_value_raises `{Library} (e : Entry)
    (rest : list Entry) (after_date before_date : option string)
    (a b : option date) (d : date) :
  well_formed_entry e →
  parse_bound after_date = Return a →
  parse_bound before_date = Return b →
  published_date e = Some d →
  after_ok a d = true → before_ok b d = true →
  filter_videos (e :: rest) (Some "title") None after_date before_date
  = Raise AttributeError
  ∧ filter_videos (e :: rest) (Some "date") None after_date before_date
    = Raise TypeError.
Proof.
  intros (t & p & l & dt & Ht & Hp & Hdt & Hread & _)%read_entry_well_formed
         Ha Hb Hd Hafter Hbefore.
  assert (d = dt_date dt) as ->.
  { unfold published_date in Hd. rewrite Hp in Hd. simpl in Hd.
    rewrite Hdt in Hd. by injection Hd. }
  unfold filter_videos. rewrite Ha, Hb. simpl. rewrite Hread. simpl.
  by rewrite passes_title_without_value, passes_date_without_value.
Qed.

Lemma legacy_mode_without_value_raises_witness :
  filter_videos (H := Sample.library [] []) Examples.feed (Some "title") None
    None None
  = Raise AttributeError.
Proof.
  apply (legacy_mode_without_value_raises (H := Sample.library [] [])
           (Examples.entry "Gamma" "2023-07-04T09:00:00+00:00")
           (tail Examples.feed) None None None None (Date 2023 7 4)).
  - vm_compute. eauto 10.
  - reflexivity.
  - reflexivity.
  - reflexivity.
  - reflexivity.
  - reflexivity.
Defined.

Lemma prefix_occurs needle text :
  String.prefix needle text = true ↔ ∃ after, text = needle +:+ after.
Proof.
  revert needle. induction text as [|c' text IH]; intros [|c needle]; simpl.
  - split; [|done]. intros _. by exists "".
  - split; [done|]. by intros [after [=]].
  - split; [|done]. intros _. by exists (String c' text).
  - destruct (Ascii.ascii_dec c c') as [<-|Hne].
    + rewrite IH. split; intros [after Hafter]; exists after.
      * by rewrite string_app_cons, Hafter.
      * rewrite string_app_cons in Hafter. by injection Hafter.
    + split; [done|]. intros [after Hafter].
      rewrite string_app_cons in Hafter. by injection Hafter.
Qed.


(** The test [needle in haystack] holds exactly when the needle stands
    somewhere in the text. *)
Lemma contains_occurs needle text :
  contains needle text = true ↔ occurs needle text.
Proof.
  unfold occurs. induction text as [|c text IH].
  - change (contains needle "") with (String.prefix needle "" || false).
    rewrite orb_false_r, prefix_occurs. split.
    + intros [after Hafter]. by exists "", after.
    + intros (before & after & Heq). destruct before; [by exists after|done].
  - change (contains needle (String c text))
      with (String.prefix needle (String c text) || contains needle text).
    rewrite orb_true_iff, prefix_occurs, IH. split.
    + intros [[after Hafter] | (before & after & Heq)].
      * by exists "", after.
      * exists (String c before), after. by rewrite string_app_cons, Heq.
    + intros (before & after & Heq). destruct before as [|c' before].
      * left. by exists after.
      * right. rewrite string_app_cons in Heq. injection Heq as _ Heq.
        by exists before, after.
Qed.

(** X24: in the [title] mode, with no date bounds, the record of an entry
    is in the result exactly when the lower-cased value stands somewhere in
    the lower-cased title of the entry. *)
Theorem title_filter_occurs `{Library} (entries : list Entry) (v : string)
    (e : Entry) (t : string) :
  Forall well_formed_entry entries →
  e ∈ entries → entry_title e = Some t →
  ∃ vs,
    filter_videos entries (Some "title") (Some v) None None = Return vs
    ∧ (video_of e ∈ vs ↔ occurs (str_lower v) (str_lower t)).
Proof.
  intros Hwf He Ht. eexists. split.
  - unfold filter_videos. simpl. rewrite filter_loop_spec; [done..|].
    split; [done|]. by intros _.
  - simpl. rewrite video_of_kept by done. rewrite <- contains_occurs.
    rewrite Forall_forall in Hwf. destruct (Hwf e He) as (_ & [d Hd] & _).
    unfold retained, title_ok, exact_date_ok. rewrite Ht, Hd. simpl.
    by destruct (contains (str_lower v) (str_lower t)).
Qed.

Lemma title_filter_occurs_witness :
  ∃ vs,
    filter_videos (H := Sample.library [] []) Examples.feed
      (Some "title") (Some "ALPHA") None None = Return vs
    ∧ (video_of (Examples.entry "Alpha" "2023-01-01T00:00:00+00:00") ∈ vs
       ↔ occurs "alpha" "alpha").
Proof.
  apply (title_filter_occurs (H := Sample.library [] []) Examples.feed
           "ALPHA" (Examples.entry "Alpha" "2023-01-01T00:00:00+00:00")
           "Alpha").
  - repeat constructor; vm_compute; eauto.
  - apply list_elem_of_In. simpl. auto.
  - reflexivity.
Defined.

(** ** The page fetcher and a resolution from the page *)

(** X25: on a first reply with a status, the page fetcher issues that one
    request and waits for nothing: it returns the body when the status is
    not from 400 to 599, and otherwise returns [None] after printing the
    not-found lines for 404 and the line with the status for any other. *)
Theorem get_youtube_source_code_on_reply (url : string) (w : world)
    (status : Z) (content : list Byte.byte) :
  internet (sys w) url (length (requests_log (sys w)))
  = Response status content →
  let w1 := set_sys (log_request url (sys w)) w in
  get_youtube_source_code url w
  = if (400 <=? status)%Z && (status <? 600)%Z then
      (Return None,
       printed
         (if (status =? 404)%Z then
            ["Error: YouTube page not found (404): " +:+ url;
             "Suggestion: Verify the URL is correct and the channel exists."]
          else
            ["Error: HTTP error " +:+ pretty status
               +:+ " while fetching URL: " +:+ url])
         w1)
    else (Return (Some content), w1).
Proof.
  intros Hreply w1.
  unfold get_youtube_source_code, try_except, retry_request, _fetch.
  change (Z.to_nat 3) with 3.
  destruct ((400 <=? status)%Z && (status <? 600)%Z) eqn:Hstatus.
  - apply andb_true_iff in Hstatus as [Hlo%Z.leb_le Hhi%Z.ltb_lt].
    rewrite (retry_loop_propagate (requests_get_content url) 3 2 2 0 w
               (HTTPError status) (log_request url (sys w)));
      [| by apply (requests_get_content_http_error url _ status content)
       | by left].
    simpl. destruct (status =? 404)%Z; unfold bind, print, ret, printed;
      simpl; by rewrite <- ?app_assoc.
  - rewrite (retry_loop_return (requests_get_content url) 3 2 2 0 w content
               (log_request url (sys w))); [done|].
    unfold requests_get_content. by rewrite Hreply, Hstatus.
Qed.

Lemma get_youtube_source_code_on_reply_witness :
  get_youtube_source_code "https://x/@foo"
    (Examples.world_of MoreExamples.online)
  = (Return (Some [Byte.x3c]),
     set_sys (log_request "https://x/@foo" MoreExamples.online)
       (Examples.world_of MoreExamples.online)).
Proof.
  apply (get_youtube_source_code_on_reply "https://x/@foo"
           (Examples.world_of MoreExamples.online) 200 [Byte.x3c]).
  reflexivity.
Defined.


